(** * unishark: the name-resolution core of [DefaultTestLoader]

    A shallow embedding of [unishark/loader.py].  Python dictionaries are
    finite maps ([gmap]), Python sets are finite sets ([gset]), raised
    exceptions are the left summand of a result type, and the attribute
    [self._name_tree] is threaded explicitly through the methods that
    mutate it.  What the loader obtains from the Python runtime ([repr],
    [pyclbr.readmodule_ex], [__import__], [getattr], [isinstance]) is a
    section variable. *)

From Stdlib Require Import ZArith String Ascii List.
From stdpp Require Import base option list gmap sets strings sorting.

Local Open Scope string_scope.

(** ** Python strings *)

Module Py.

(** [sep.join(parts)]. *)
Fixpoint join (sep : string) (parts : list string) : string :=
  match parts with
  | [] => ""
  | [p] => p
  | p :: rest => p ++ sep ++ join sep rest
  end.

(** [s.split(c)] for a one-character separator: never the empty list,
    [''.split('.') == ['']]. *)
Fixpoint split (c : ascii) (s : string) : list string :=
  match s with
  | EmptyString => [""]
  | String a s' =>
      if Ascii.eqb a c then "" :: split c s'
      else match split c s' with
           | [] => [String a ""]
           | h :: t => String a h :: t
           end
  end.

(** [s.startswith(p)]. *)
Definition startswith (s p : string) : bool := String.prefix p s.

(** Truth value of a string, and of [None] or a string. *)
Definition truthy (s : string) : bool :=
  match s with EmptyString => false | _ => true end.

Definition truthy_opt (o : option string) : bool :=
  match o with None => false | Some s => truthy s end.

(** Number of occurrences of a character, and its absence. *)
Fixpoint count (c : ascii) (s : string) : nat :=
  match s with
  | EmptyString => 0
  | String a s' => (if Ascii.eqb a c then 1 else 0) + count c s'
  end.

Definition free_of (c : ascii) (s : string) : Prop := count c s = 0.

End Py.

(** ** Exceptions *)

Inductive exn : Type :=
  | ValueError (msg : string)
  | TypeError
  | ImportError
  | AttributeError
  | KeyError (key : string).

Definition result (A : Type) : Type := exn + A.

#[global] Instance result_ret : MRet result := λ A a, inr a.
#[global] Instance result_bind : MBind result :=
  λ A B k r, match r with inl e => inl e | inr a => k a end.

Definition is_ImportError (e : exn) : bool :=
  match e with ImportError => true | _ => false end.

(** [d[k]] on a dictionary. *)
Definition getitem {V} (d : gmap string V) (k : string) : result V :=
  match d !! k with
  | Some v => inr v
  | None => inl (KeyError k)
  end.

Definition dot : ascii := "."%char.
Definition dquote : ascii := "034"%char.

Section NameParser.

(** [repr] of a string, as [%r] formats it. *)
Variable repr : string → string.

(** [_get_cls_name_parts] *)
Definition _get_cls_name_parts (long_name : string) : result (string * string) :=
  match Py.split dot long_name with
  | [p0; p1] => inr (p0, p1)
  | _ => inl (ValueError (repr long_name ++ " does not comply with: " ++
                          String dquote ("module.class" ++ String dquote ".")))
  end.

(** [_get_mth_name_parts] *)
Definition _get_mth_name_parts (long_name : string) : result (string * string * string) :=
  match Py.split dot long_name with
  | [p0; p1; p2] => inr (p0, p1, p2)
  | _ => inl (ValueError (repr long_name ++ " does not comply with: " ++
                          String dquote ("module.class.method" ++ String dquote ".")))
  end.

End NameParser.

(** ** What [pyclbr] reports about a module *)

(** A [pyclbr.Class]; [methods] maps a method name to its line number. *)
Record pyclbr_Class : Type := { methods : gmap string Z }.

Inductive pyclbr_obj : Type :=
  | PClass (cls : pyclbr_Class)
  | PFunction
  | POther.

(** ** The loader object *)

(** The name tree: module name to class name to set of method names.
    Iteration over a [gmap] or [gset] follows the order of its keys, not
    Python's insertion or hash order; nothing below depends on that order
    except the position of each name in a returned list. *)
Abbreviation name_tree := (gmap string (gmap string (gset string))).

Record DefaultTestLoader : Type := {
  _name_tree : option name_tree;
  method_prefix : string
}.

(** [DefaultTestLoader(method_prefix)] *)
Definition __init__ (method_prefix : string) : DefaultTestLoader :=
  {| _name_tree := None; method_prefix := method_prefix |}.

Definition set_name_tree (t : name_tree) (self : DefaultTestLoader) : DefaultTestLoader :=
  {| _name_tree := Some t; method_prefix := method_prefix self |}.

(** A method body: it returns or raises, and leaves the loader in some
    state either way. *)
Definition M (A : Type) : Type := DefaultTestLoader → result A * DefaultTestLoader.

Definition ret {A} (a : A) : M A := λ self, (inr a, self).
Definition raise {A} (e : exn) : M A := λ self, (inl e, self).
Definition bind {A B} (m : M A) (k : A → M B) : M B :=
  λ self, match m self with
          | (inr a, self') => k a self'
          | (inl e, self') => (inl e, self')
          end.
Definition lift {A} (r : result A) : M A := λ self, (r, self).

#[global] Instance M_ret : MRet M := @ret.
#[global] Instance M_bind : MBind M := λ A B k m, bind m k.

(** [for x in xs: body(x)] *)
Fixpoint for_ {X} (xs : list X) (body : X → M unit) : M unit :=
  match xs with
  | [] => ret tt
  | x :: rest => body x ;; for_ rest body
  end.

Definition get_self : M DefaultTestLoader := λ self, (inr self, self).

(** Reading [self._name_tree] as a container: [None] is not one. *)
Definition get_tree : M name_tree :=
  λ self, match _name_tree self with
          | Some t => (inr t, self)
          | None => (inl TypeError, self)
          end.

(** An in-place update of the object [self._name_tree] refers to. *)
Definition modify_tree (f : name_tree → name_tree) : M unit :=
  λ self, match _name_tree self with
          | Some t => (inr tt, set_name_tree (f t) self)
          | None => (inl TypeError, self)
          end.

(** ** The loader's methods *)

Section Loader.

(** [repr] of a string, as [%r] formats it. *)
Variable repr : string → string.

(** [pyclbr.readmodule_ex] on a dotted module path. *)
Variable readmodule_ex : string → result (gmap string pyclbr_obj).

(** ['.'.join((prefix, name)) if prefix else name] *)
Definition dotted (prefix : option string) (name : string) : string :=
  match prefix with
  | Some p => if Py.truthy p then Py.join "." [p; name] else name
  | None => name
  end.

(** [_inspect_module] *)
Definition _inspect_module (pkg_name : option string) (mod_name : string)
  : result (gmap string pyclbr_obj) :=
  let full_mod_name :=
    if negb (Py.truthy_opt pkg_name) then mod_name
    else Py.join "." [default "" pkg_name; mod_name] in
  readmodule_ex full_mod_name.

(** [_get_classes_of_module]: the entries that are a [pyclbr.Class]. *)
Definition _get_classes_of_module (module_content : gmap string pyclbr_obj)
  : gmap string pyclbr_Class :=
  omap (λ obj, match obj with PClass cls => Some cls | _ => None end)
       module_content.

(** The sort key [lambda k: cls.methods[k]]. *)
Definition lineno (cls : pyclbr_Class) (k : string) : Z :=
  default 0%Z (methods cls !! k).

Definition by_lineno (cls : pyclbr_Class) (k1 k2 : string) : Prop :=
  (lineno cls k1 ≤ lineno cls k2)%Z.

#[global] Instance by_lineno_dec cls k1 k2 : Decision (by_lineno cls k1 k2).
Proof. unfold by_lineno. apply _. Defined.

(** [_get_method_names_by_class] *)
Definition _get_method_names_by_class (self : DefaultTestLoader) (cls : pyclbr_Class)
  : list string :=
  let method_names := merge_sort (by_lineno cls) (map fst (map_to_list (methods cls))) in
  filter (λ n, Py.startswith n (method_prefix self) = true) method_names.

(** [filter_cls_names and long_cls_name not in filter_cls_names] *)
Definition filtered_out (filter_cls_names : option (gset string)) (long_cls_name : string)
  : bool :=
  match filter_cls_names with
  | Some f => bool_decide (f ≠ ∅) && bool_decide (long_cls_name ∉ f)
  | None => false
  end.

(** The body of the loop over [classes.items()] in [_build_name_tree],
    acting on the dictionary [tree]. *)
Definition build_class (self : DefaultTestLoader) (filter_cls_names : option (gset string))
    (mod_name : string) (tree : name_tree) (item : string * pyclbr_Class) : name_tree :=
  let '(cls_name, cls) := item in
  let long_cls_name := Py.join "." [mod_name; cls_name] in
  if filtered_out filter_cls_names long_cls_name then tree else
  let mth_names := _get_method_names_by_class self cls in
  if bool_decide (mth_names = []) then tree else
  let tree := if bool_decide (tree !! mod_name = None) then <[mod_name := ∅]> tree else tree in
  let tree :=
    if bool_decide (tree !! mod_name ≫= (.!! cls_name) = None)
    then alter (insert cls_name ∅) mod_name tree else tree in
  foldl (λ tree mth_name, alter (alter (λ s, s ∪ {[mth_name]}) cls_name) mod_name tree)
        tree mth_names.

(** The body of the loop over [mod_names]: it raises when the module
    cannot be inspected. *)
Definition build_module (pkg_name : option string)
    (filter_cls_names : option (gset string)) (mod_name : string) : M unit :=
  mod_content ← lift (_inspect_module pkg_name mod_name);
  self ← get_self;
  let classes := _get_classes_of_module mod_content in
  if bool_decide (classes = ∅) then mret tt else
  modify_tree (λ tree, foldl (build_class self filter_cls_names mod_name) tree
                             (map_to_list classes)).

(** [_build_name_tree]: [tree] and [self._name_tree] name one dictionary,
    so every insertion is an update of the loader. *)
Definition _build_name_tree (pkg_name : option string) (mod_names : gset string)
    (filter_cls_names : option (gset string)) : M unit :=
  λ self,
    for_ (elements mod_names) (build_module pkg_name filter_cls_names)
         (set_name_tree ∅ self).

(** The methods the spec counts for module [m]: [t] is declared in a
    class [c] of the inspected module and starts with the method prefix. *)
Definition declared (self : DefaultTestLoader) (pkg_name : option string)
    (m c t : string) : Prop :=
  ∃ content cls,
    _inspect_module pkg_name m = inr content ∧
    content !! c = Some (PClass cls) ∧
    is_Some (methods cls !! t) ∧
    Py.startswith t (method_prefix self) = true.

(** [_del_cls_in_name_tree] *)
Definition _del_cls_in_name_tree (mod_name cls_name : string) : M unit :=
  let long_cls_name := Py.join "." [mod_name; cls_name] in
  tree ← get_tree;
  if bool_decide (tree !! mod_name = None) then
    raise (ValueError ("Cannot exclude " ++ repr long_cls_name ++ ": " ++
                       repr mod_name ++ " not found in modules list."))
  else
  classes ← lift (getitem tree mod_name);
  if bool_decide (classes !! cls_name = None) then
    raise (ValueError ("Cannot exclude " ++ repr long_cls_name ++ ": " ++
                       repr cls_name ++ " not found in " ++ repr mod_name ++ "."))
  else
  modify_tree (alter (delete cls_name) mod_name) ;;
  tree ← get_tree;
  classes ← lift (getitem tree mod_name);
  if bool_decide (classes = ∅) then modify_tree (delete mod_name) else mret tt.

(** [_del_mth_in_name_tree] *)
Definition _del_mth_in_name_tree (mod_name cls_name mth_name : string) : M unit :=
  let long_mth_name := Py.join "." [mod_name; cls_name; mth_name] in
  tree ← get_tree;
  if bool_decide (tree !! mod_name = None) then
    raise (ValueError ("Cannot exclude " ++ repr long_mth_name ++ ": " ++
                       repr mod_name ++ " not found in modules list."))
  else
  classes ← lift (getitem tree mod_name);
  if bool_decide (classes !! cls_name = None) then
    raise (ValueError ("Cannot exclude " ++ repr long_mth_name ++ ": " ++
                       repr cls_name ++ " not found in " ++ repr mod_name ++ "."))
  else
  mths ← lift (getitem classes cls_name);
  if bool_decide (mth_name ∉ mths) then
    raise (ValueError ("Cannot exclude " ++ repr long_mth_name ++ ": " ++
                       repr mth_name ++ " not found in " ++ repr cls_name ++ "."))
  else
  modify_tree (alter (alter (λ s, s ∖ {[mth_name]}) cls_name) mod_name) ;;
  tree ← get_tree;
  classes ← lift (getitem tree mod_name);
  mths ← lift (getitem classes cls_name);
  (if bool_decide (mths = ∅)
   then modify_tree (alter (delete cls_name) mod_name) else mret tt) ;;
  tree ← get_tree;
  classes ← lift (getitem tree mod_name);
  if bool_decide (classes = ∅) then modify_tree (delete mod_name) else mret tt.

(** [_del_except_classes_in_name_tree] *)
Definition _del_except_classes_in_name_tree (except_cls_names : list string) : M unit :=
  for_ (elements (list_to_set except_cls_names : gset string))
       (λ except_cls_name,
          '(mod_name, cls_name) ← lift (_get_cls_name_parts repr except_cls_name);
          _del_cls_in_name_tree mod_name cls_name).

(** [_del_except_methods_in_name_tree] *)
Definition _del_except_methods_in_name_tree (except_mth_names : list string) : M unit :=
  for_ (elements (list_to_set except_mth_names : gset string))
       (λ except_mth_name,
          '(mod_name, cls_name, mth_name) ← lift (_get_mth_name_parts repr except_mth_name);
          _del_mth_in_name_tree mod_name cls_name mth_name).

End Loader.

(** A Python value that is a set of strings or a dictionary of such
    values: what [_get_dotted_names_dfs] walks. *)
#[warnings="-register-all"]
Inductive pytree : Type :=
  | PySet (s : gset string)
  | PyDict (d : gmap string pytree).

Fixpoint _get_dotted_names_dfs (tree : pytree) (prefix : option string)
    (dotted_names : list string) : list string :=
  match tree with
  | PySet s =>
      foldl (λ acc name, acc ++ [dotted prefix name])%list dotted_names (elements s)
  | PyDict d =>
      map_fold (λ name sub acc, _get_dotted_names_dfs sub (Some (dotted prefix name)) acc)
               dotted_names d
  end.

(** The name tree as the value the traversal receives. *)
Definition pytree_of (tree : name_tree) : pytree :=
  PyDict ((λ classes : gmap string (gset string), PyDict (PySet <$> classes)) <$> tree).

(** [_get_full_method_names_from_tree] *)
Definition _get_full_method_names_from_tree (pkg_name : option string) : M (list string) :=
  tree ← get_tree;
  mret (_get_dotted_names_dfs (pytree_of tree) pkg_name []).

(** ** The configuration *)

(** One entry of [suite['groups']]; an absent key is [None]. *)
Record group : Type := {
  disable : option bool;
  granularity : string;
  modules : option (list string);
  classes : option (list string);
  methods_ : option (list string);
  except_classes : option (list string);
  except_methods : option (list string)
}.

(** One entry of [dict_conf['suites']]. *)
Record suite : Type := {
  package : option string;
  groups : gmap string group;
  max_workers : option Z
}.

Record dict_conf : Type := {
  test_suites : list string;
  suites : gmap string suite
}.

(** One entry of the dictionary [_parse_tests_from_dict] returns. *)
Record parsed_suite : Type := {
  res_package : string;
  res_test_case_names : gset string;
  res_max_workers : Z
}.

(** [d[k]] for a key of a configuration record. *)
Definition getkey {A} (key : string) (o : option A) : result A :=
  match o with
  | Some a => inr a
  | None => inl (KeyError key)
  end.

Section Resolver.

Variable repr : string → string.
Variable readmodule_ex : string → result (gmap string pyclbr_obj).

(** [pkg_name] as lines 86-88 compute it. *)
Definition pkg_name_of (s : suite) : option string :=
  match package s with
  | Some p => if Py.truthy p then Some p else None
  | None => None
  end.

(** The loop that collects the module of each class name. *)
Fixpoint class_modules (long_cls_names : list string) (mod_names : gset string)
  : result (gset string) :=
  match long_cls_names with
  | [] => inr mod_names
  | long_cls_name :: rest =>
      match _get_cls_name_parts repr long_cls_name with
      | inl e => inl e
      | inr (mod_name, _) => class_modules rest (mod_names ∪ {[mod_name]})
      end
  end.

(** The loop that validates each method name. *)
Fixpoint check_method_names (long_mth_names : list string) : result unit :=
  match long_mth_names with
  | [] => inr tt
  | long_mth_name :: rest =>
      match _get_mth_name_parts repr long_mth_name with
      | inl e => inl e
      | inr _ => check_method_names rest
      end
  end.

(** [if key in group: f(group[key])] *)
Definition when_present {A} (o : option A) (f : A → M unit) : M unit :=
  match o with
  | Some a => f a
  | None => mret tt
  end.

(** The body of the loop over [groups_dict.items()], past the [disable]
    test: the names it passes to [test_cases_names.extend]. *)
Definition parse_group (pkg_name : option string) (g : group) : M (list string) :=
  let gran := granularity g in
  if String.eqb gran "module" then
    mod_names ← lift (getkey "modules" (modules g));
    let mod_names : gset string := list_to_set mod_names in
    _build_name_tree readmodule_ex pkg_name mod_names None ;;
    when_present (except_classes g) (_del_except_classes_in_name_tree repr) ;;
    when_present (except_methods g) (_del_except_methods_in_name_tree repr) ;;
    _get_full_method_names_from_tree pkg_name
  else if String.eqb gran "class" then
    long_cls_names ← lift (getkey "classes" (classes g));
    let long_cls_names : gset string := list_to_set long_cls_names in
    mod_names ← lift (class_modules (elements long_cls_names) ∅);
    _build_name_tree readmodule_ex pkg_name mod_names (Some long_cls_names) ;;
    when_present (except_methods g) (_del_except_methods_in_name_tree repr) ;;
    _get_full_method_names_from_tree pkg_name
  else if String.eqb gran "method" then
    long_mth_names ← lift (getkey "methods" (methods_ g));
    let long_mth_names : gset string := list_to_set long_mth_names in
    lift (check_method_names (elements long_mth_names)) ;;
    mret (match pkg_name with
          | Some p => if Py.truthy p
                      then map (λ x, Py.join "." [p; x]) (elements long_mth_names)
                      else elements long_mth_names
          | None => elements long_mth_names
          end)
  else
    raise (ValueError "Granularity must be in ['module', 'class', 'method'].").

(** [disable in group and group['disable']] *)
Definition disabled (g : group) : bool := default false (disable g).

(** The loop over the groups of one suite, extending [test_cases_names]. *)
Fixpoint parse_groups (pkg_name : option string) (gs : list (string * group))
    (test_cases_names : list string) : M (list string) :=
  match gs with
  | [] => mret test_cases_names
  | (_, g) :: rest =>
      if disabled g then parse_groups pkg_name rest test_cases_names
      else
        names ← parse_group pkg_name g;
        parse_groups pkg_name rest (test_cases_names ++ names)%list
  end.

(** The body of the loop over [test['suites']]: the entry stored under
    [suite_name]. *)
Definition parse_suite (s : suite) : M parsed_suite :=
  let pkg_name := pkg_name_of s in
  test_cases_names ← parse_groups pkg_name (map_to_list (groups s)) [];
  let max_workers := match max_workers s with Some n => n | None => 1%Z end in
  mret {| res_package := default "None" pkg_name;
          res_test_case_names := list_to_set test_cases_names;
          res_max_workers := max_workers |}.

Fixpoint parse_suites (conf : dict_conf) (suite_names : list string)
    (res_suites : gmap string parsed_suite) : M (gmap string parsed_suite) :=
  match suite_names with
  | [] => mret res_suites
  | suite_name :: rest =>
      s ← lift (getitem (suites conf) suite_name);
      r ← parse_suite s;
      parse_suites conf rest (<[suite_name := r]> res_suites)
  end.

(** [_parse_tests_from_dict] *)
Definition _parse_tests_from_dict (conf : dict_conf) : M (gmap string parsed_suite) :=
  parse_suites conf (test_suites conf) ∅.

End Resolver.

(** ** Loading a case from its full name *)

Section CaseLoader.

(** The Python objects other than [None] that a dotted name can reach,
    and what the interpreter answers about them. *)
Variable pyobj : Type.
(** [__import__(name)] *)
Variable py_import : string → result pyobj.
(** [getattr(obj, part)] *)
Variable py_getattr : pyobj → string → result pyobj.
(** [isinstance(obj, types.FunctionType)] *)
Variable is_FunctionType : pyobj → bool.
(** [isinstance(parent, type) and issubclass(parent, self._case_class)] *)
Variable is_case_class : pyobj → bool.
(** [parent(name)] *)
Variable new_case : pyobj → string → result pyobj.

(** The import loop; [rev_parts] is [mod_name_parts] reversed, so that
    [del mod_name_parts[-1]] is its tail. *)
Fixpoint import_loop (rev_parts : list string) : result (option pyobj) :=
  match rev_parts with
  | [] => inr None
  | _ :: rest =>
      match py_import (Py.join "." (rev rev_parts)) with
      | inr mod_ => inr (Some mod_)
      | inl e =>
          if is_ImportError e then
            match rest with
            | [] => inl e
            | _ => import_loop rest
            end
          else inl e
      end
  end.

(** [getattr] on a value that may be [None]. *)
Definition getattr (obj : option pyobj) (part : string) : result pyobj :=
  match obj with
  | Some o => py_getattr o part
  | None => inl AttributeError
  end.

(** The loop [parent, obj = obj, getattr(obj, part)]. *)
Fixpoint walk (parts : list string) (parent obj : option pyobj)
  : result (option pyobj * option pyobj) :=
  match parts with
  | [] => inr (parent, obj)
  | part :: rest =>
      match getattr obj part with
      | inl e => inl e
      | inr o => walk rest obj (Some o)
      end
  end.

(** The object a full name resolves to, with its owner. *)
Definition resolve (name : string) : result (option pyobj * option pyobj) :=
  let name_parts := Py.split dot name in
  mod_ ← import_loop (rev name_parts);
  walk (tail name_parts) None mod_.

(** [_make_case_from_full_name]; [inr None] is the return value [None]. *)
Definition _make_case_from_full_name (name : string) : result (option pyobj) :=
  let name_parts := Py.split dot name in
  '(parent, obj) ← resolve name;
  if negb (from_option is_FunctionType false obj) then inl TypeError
  else
    match parent with
    | Some cls =>
        if is_case_class cls then
          let name := default "" (last name_parts) in
          test_obj ← new_case cls name;
          attr ← py_getattr test_obj name;
          if negb (is_FunctionType attr) then inr (Some test_obj) else inr None
        else inr None
    | None => inr None
    end.

(** The list comprehension of [load_tests_from_full_names]. *)
Fixpoint make_cases (names : list string) : result (list (option pyobj)) :=
  match names with
  | [] => inr []
  | name :: rest =>
      case ← _make_case_from_full_name name;
      cases ← make_cases rest;
      inr (case :: cases)
  end.

(** [load_tests_from_full_names]; the suite is the list of its cases. *)
Definition load_tests_from_full_names (names : list string) : result (list pyobj) :=
  cases ← make_cases names;
  inr (omap id cases).

End CaseLoader.

(** ** The driver *)

(** One entry of the dictionary [load_test_from_dict] returns. *)
Record loaded_suite (pyobj : Type) : Type := {
  ls_package : string;
  ls_suite : list pyobj;
  ls_max_workers : Z
}.

Arguments ls_package {pyobj} _.
Arguments ls_suite {pyobj} _.
Arguments ls_max_workers {pyobj} _.

Section Driver.

Variable repr : string → string.
Variable readmodule_ex : string → result (gmap string pyclbr_obj).
Variable pyobj : Type.
Variable py_import : string → result pyobj.
Variable py_getattr : pyobj → string → result pyobj.
Variable is_FunctionType : pyobj → bool.
Variable is_case_class : pyobj → bool.
Variable new_case : pyobj → string → result pyobj.

(** The loop of [load_test_from_dict] over the parsed suites; the calls
    of [log] have no part in the result and are left out. *)
Fixpoint load_suites (items : list (string * parsed_suite))
    (suites_dict : gmap string (loaded_suite pyobj)) : M (gmap string (loaded_suite pyobj)) :=
  match items with
  | [] => mret suites_dict
  | (suite_name, content) :: rest =>
      let package := res_package content in
      let test_case_names := res_test_case_names content in
      suite ← lift (load_tests_from_full_names pyobj py_import py_getattr is_FunctionType
                      is_case_class new_case (elements test_case_names));
      load_suites rest
        (<[suite_name := {| ls_package := package; ls_suite := suite;
                            ls_max_workers := res_max_workers content |}]> suites_dict)
  end.

(** [load_test_from_dict] *)
Definition load_test_from_dict (conf : dict_conf) : M (gmap string (loaded_suite pyobj)) :=
  parsed ← _parse_tests_from_dict repr readmodule_ex conf;
  load_suites (map_to_list parsed) ∅.

End Driver.

(** ** Reading a name tree *)

(** [tree[m][c]] when both keys are present. *)
Definition get_cls (tree : name_tree) (m c : string) : option (gset string) :=
  tree !! m ≫= (.!! c).

(** [t] is a method name stored under class [c] of module [m]. *)
Definition has_mth (tree : name_tree) (m c t : string) : Prop :=
  ∃ ms, get_cls tree m c = Some ms ∧ t ∈ ms.

(** No module entry without a class, no class entry without a method. *)
Definition no_empty_branch (tree : name_tree) : Prop :=
  (∀ m cs, tree !! m = Some cs → cs ≠ ∅) ∧
  (∀ m c ms, get_cls tree m c = Some ms → ms ≠ ∅).

(** The tree a successful [_del_cls_in_name_tree] leaves. *)
Definition tree_without_cls (tree : name_tree) (m c : string) : name_tree :=
  let tree1 := alter (delete c) m tree in
  if bool_decide (tree1 !! m = Some ∅) then delete m tree1 else tree1.

(** The tree a successful [_del_mth_in_name_tree] leaves. *)
Definition tree_without_mth (tree : name_tree) (m c t : string) : name_tree :=
  let tree1 := alter (alter (λ s, s ∖ {[t]}) c) m tree in
  let tree2 := if bool_decide (get_cls tree1 m c = Some ∅)
               then alter (delete c) m tree1 else tree1 in
  if bool_decide (tree2 !! m = Some ∅) then delete m tree2 else tree2.

(** The names a class entry yields under prefix [p]. *)
Definition class_names (p : option string) (item : string * gset string) : list string :=
  dotted (Some (dotted p item.1)) <$> elements item.2.

(** The names a module entry yields under prefix [p]. *)
Definition module_names (p : option string) (item : string * gmap string (gset string))
  : list string :=
  reverse (map_to_list item.2) ≫= class_names (Some (dotted p item.1)).

(** The leaves of a name tree, each listed once. *)
Definition leaves (tree : name_tree) : list (string * string * string) :=
  '(m, cs) ← map_to_list tree;
  '(c, ms) ← map_to_list cs;
  (λ t, (m, c, t)) <$> elements ms.

(** The name the traversal appends for a leaf: [dotted] at each level. *)
Definition leaf_name (pkg_name : option string) (leaf : string * string * string) : string :=
  let '(m, c, t) := leaf in
  dotted (Some (dotted (Some (dotted pkg_name m)) c)) t.

(** [package.module.class.method], or [module.class.method] when no
    package is set. *)
Definition full_name (pkg_name : option string) (leaf : string * string * string) : string :=
  let '(m, c, t) := leaf in
  match pkg_name with
  | Some p => if Py.truthy p then Py.join "." [p; m; c; t] else Py.join "." [m; c; t]
  | None => Py.join "." [m; c; t]
  end.

(** [x] is [module.class] for a class entry of the tree. *)
Definition names_class (tree : name_tree) (x : string) : Prop :=
  ∃ m c, x = m ++ "." ++ c ∧ Py.free_of dot m ∧ Py.free_of dot c ∧
         is_Some (get_cls tree m c).

(** [x] is [module.class.method] for a method of the tree. *)
Definition names_method (tree : name_tree) (x : string) : Prop :=
  ∃ m c t, x = m ++ "." ++ c ++ "." ++ t ∧
           Py.free_of dot m ∧ Py.free_of dot c ∧ Py.free_of dot t ∧
           has_mth tree m c t.

(** ** Reading a method body *)

(** The body never reassigns [self.method_prefix]. *)
Definition keeps_prefix {A} (m : M A) : Prop :=
  ∀ self, method_prefix (snd (m self)) = method_prefix self.

(** The names a group resolves to with loader [self], none when it raises. *)
Definition group_names (run : M (list string)) (self : DefaultTestLoader) : list string :=
  match fst (run self) with
  | inr names => names
  | inl _ => []
  end.

(** ** Fixtures

    A module [m] (also importable as [pkg.m]) with a class [C] declaring
    [test_a], [test_b] and [helper], a class [D] declaring only [helper],
    and a function [f]; and [repr] on strings that hold no quote,
    backslash or control character. *)

Definition quote_repr (s : string) : string := "'" ++ s ++ "'".

Definition fx_module_m : gmap string pyclbr_obj :=
  {[ "C" := PClass {| methods := {[ "test_a" := 2%Z; "test_b" := 4%Z; "helper" := 6%Z ]} |};
     "D" := PClass {| methods := {[ "helper" := 9%Z ]} |};
     "f" := PFunction;
     "__path__" := POther ]}.

Definition fx_readmodule_ex (name : string) : result (gmap string pyclbr_obj) :=
  if String.eqb name "m" then inr fx_module_m
  else if String.eqb name "pkg.m" then inr fx_module_m
  else inl ImportError.

Definition fx_loader : DefaultTestLoader := __init__ "test".

Definition fx_methods : gset string := {[ "test_a"; "test_b" ]}.
Definition fx_classes : gmap string (gset string) := {[ "C" := fx_methods ]}.
Definition fx_tree : name_tree := {[ "m" := fx_classes ]}.

(** A loader whose name tree is [fx_tree]. *)
Definition fx_built : DefaultTestLoader := set_name_tree fx_tree fx_loader.

(** An interpreter in which no module can be inspected. *)
Definition fx_no_module (name : string) : result (gmap string pyclbr_obj) :=
  inl ImportError.

Definition fx_group (gran : string) : group :=
  {| disable := None; granularity := gran; modules := None; classes := None;
     methods_ := None; except_classes := None; except_methods := None |}.

Definition fx_method_group (names : list string) : group :=
  {| disable := None; granularity := "method"; modules := None; classes := None;
     methods_ := Some names; except_classes := None; except_methods := None |}.

Definition fx_module_group (names : list string) : group :=
  {| disable := None; granularity := "module"; modules := Some names; classes := None;
     methods_ := None; except_classes := None; except_methods := None |}.

(** A disabled group whose granularity is not a legal one. *)
Definition fx_disabled_group : group :=
  {| disable := Some true; granularity := "package"; modules := None; classes := None;
     methods_ := None; except_classes := None; except_methods := None |}.

(** Two groups that both reach [m.C.test_a], and a disabled one. *)
Definition fx_groups : gmap string group :=
  {[ "g1" := fx_module_group ["m"];
     "g2" := fx_method_group ["m.C.test_a"; "n.D.test_z"];
     "g3" := fx_disabled_group ]}.

Definition fx_suite : suite :=
  {| package := None; groups := fx_groups; max_workers := None |}.

(** The same group in a suite without a package and in a suite whose
    package is named [None]. *)
Definition fx_suite_no_package : suite :=
  {| package := None;
     groups := {[ "g" := fx_method_group ["mod.Cls.test_x"] ]};
     max_workers := None |}.

Definition fx_suite_pkg : suite :=
  {| package := Some "pkg";
     groups := {[ "g" := fx_method_group ["mod.Cls.test_x"] ]};
     max_workers := None |}.

Definition fx_parsed_no_package : parsed_suite :=
  {| res_package := "None";
     res_test_case_names := {[ "mod.Cls.test_x" ]};
     res_max_workers := 1 |}.

Definition fx_parsed_pkg : parsed_suite :=
  {| res_package := "pkg";
     res_test_case_names := {[ "pkg.mod.Cls.test_x" ]};
     res_max_workers := 1 |}.

Definition fx_suite_named_None : suite :=
  {| package := Some "None";
     groups := {[ "g" := fx_method_group ["mod.Cls.test_x"] ]};
     max_workers := None |}.

(** A small interpreter: module [m] holds the test-case class [C] with
    the method [test_a] and the static method [sm], and the integer [k]. *)
Inductive fx_obj : Type :=
  | ModM | ClsC | FnTestA | FnSm | IntK
  | CaseOf (name : string)
  | BoundMethod (name : string).

Definition fx_import (name : string) : result fx_obj :=
  if String.eqb name "m" then inr ModM else inl ImportError.

Definition fx_getattr (obj : fx_obj) (part : string) : result fx_obj :=
  match obj with
  | ModM =>
      if String.eqb part "C" then inr ClsC
      else if String.eqb part "k" then inr IntK
      else inl AttributeError
  | ClsC =>
      if String.eqb part "test_a" then inr FnTestA
      else if String.eqb part "sm" then inr FnSm
      else inl AttributeError
  | CaseOf _ =>
      if String.eqb part "test_a" then inr (BoundMethod part)
      else if String.eqb part "sm" then inr FnSm
      else inl AttributeError
  | _ => inl AttributeError
  end.

Definition fx_is_FunctionType (obj : fx_obj) : bool :=
  match obj with FnTestA | FnSm => true | _ => false end.

Definition fx_is_case_class (obj : fx_obj) : bool :=
  match obj with ClsC => true | _ => false end.

Definition fx_new_case (cls : fx_obj) (name : string) : result fx_obj :=
  inr (CaseOf name).

Definition fx_class_C : pyclbr_Class :=
  {| methods := {[ "test_a" := 2%Z; "test_b" := 4%Z; "helper" := 6%Z ]} |}.

(** Module [m] without the method [m.C.test_b]. *)
Definition fx_group_except_method : group :=
  {| disable := None; granularity := "module"; modules := Some ["m"]; classes := None;
     methods_ := None; except_classes := None; except_methods := Some ["m.C.test_b"] |}.

(** Module [m] without a class [X] it does not have. *)
Definition fx_group_stale : group :=
  {| disable := None; granularity := "module"; modules := Some ["m"]; classes := None;
     methods_ := None; except_classes := Some ["m.X"]; except_methods := None |}.

(** The classes [C] and [D] of module [m]. *)
Definition fx_class_group : group :=
  {| disable := None; granularity := "class"; modules := None;
     classes := Some ["m.C"; "m.D"];
     methods_ := None; except_classes := None; except_methods := None |}.

(** * Properties *)

(** ** Facts about [split] and [join] *)

Section SplitFacts.

Variable c : ascii.

Lemma split_not_nil (s : string) : Py.split c s ≠ [].
Proof. destruct s as [|a s]; simpl; [done|]. destruct (Ascii.eqb a c); [done|]. by destruct (Py.split c s). Qed.

Lemma length_split (s : string) : length (Py.split c s) = S (Py.count c s).
Proof.
  induction s as [|a s IH]; simpl; [done|].
  destruct (Ascii.eqb a c); simpl; [by rewrite IH|].
  destruct (Py.split c s); simpl in *; lia.
Qed.

Lemma join_split (s : string) : Py.join (String c "") (Py.split c s) = s.
Proof.
  induction s as [|a s IH]; simpl; [done|].
  destruct (Ascii.eqb_spec a c) as [->|Hne].
  - pose proof (split_not_nil s). destruct (Py.split c s) as [|h t]; [done|].
    simpl in *. by rewrite IH.
  - pose proof (split_not_nil s). destruct (Py.split c s) as [|h t]; [done|].
    destruct t; simpl in *; by rewrite <- IH.
Qed.

Lemma split_free_of (s : string) : Forall (Py.free_of c) (Py.split c s).
Proof.
  induction s as [|a s IH]; simpl.
  - by repeat constructor.
  - destruct (Ascii.eqb a c) eqn:E.
    + by constructor.
    + destruct (Py.split c s) as [|h t]; simpl.
      * repeat constructor. unfold Py.free_of. simpl. by rewrite E.
      * inversion IH; subst. constructor; [|done].
        unfold Py.free_of in *. simpl. by rewrite E.
Qed.

Lemma split_free_id (s : string) : Py.free_of c s → Py.split c s = [s].
Proof.
  unfold Py.free_of. induction s as [|a s IH]; simpl; [done|].
  destruct (Ascii.eqb a c); [done|]. intros H. by rewrite IH.
Qed.

Lemma split_app (a b : string) :
  Py.split c (a ++ String c b) = (Py.split c a ++ Py.split c b)%list.
Proof.
  induction a as [|x a IH]; simpl.
  - by rewrite Ascii.eqb_refl.
  - destruct (Ascii.eqb x c); [by rewrite IH|].
    rewrite IH. pose proof (split_not_nil a). by destruct (Py.split c a).
Qed.

End SplitFacts.

Lemma count_app (c : ascii) (a b : string) :
  Py.count c (a ++ b) = Py.count c a + Py.count c b.
Proof. induction a as [|x a IH]; simpl; [done|]. rewrite IH. lia. Qed.

(** ** The name parser *)

Section NameParserFacts.

Variable repr : string → string.

Lemma split_two (s m c : string) :
  Py.split dot s = [m; c] →
  Py.count dot s = 1 ∧ s = m ++ "." ++ c ∧ Py.free_of dot m ∧ Py.free_of dot c.
Proof.
  intros Hs. pose proof (length_split dot s) as Hl.
  pose proof (join_split dot s) as Hj. pose proof (split_free_of dot s) as Hf.
  rewrite Hs in Hl, Hj, Hf. simpl in Hl, Hj.
  inversion Hf as [|? ? ? Hf']; subst. inversion Hf'; subst.
  repeat split; [lia|done..].
Qed.

Lemma split_three (s m c t : string) :
  Py.split dot s = [m; c; t] →
  Py.count dot s = 2 ∧ s = m ++ "." ++ c ++ "." ++ t ∧
  Py.free_of dot m ∧ Py.free_of dot c ∧ Py.free_of dot t.
Proof.
  intros Hs. pose proof (length_split dot s) as Hl.
  pose proof (join_split dot s) as Hj. pose proof (split_free_of dot s) as Hf.
  rewrite Hs in Hl, Hj, Hf. simpl in Hl, Hj.
  inversion Hf as [|? ? ? Hf']; subst. inversion Hf' as [|? ? ? Hf'']; subst.
  inversion Hf''; subst. repeat split; [lia|done..].
Qed.

(** Any two dot-free segments, empty or not, are accepted as a class name. *)
Lemma get_cls_name_parts_join (m c : string) :
  Py.free_of dot m → Py.free_of dot c →
  _get_cls_name_parts repr (m ++ "." ++ c) = inr (m, c).
Proof.
  intros Hm Hc. unfold _get_cls_name_parts.
  change (m ++ "." ++ c) with (m ++ String dot c).
  by rewrite split_app, !split_free_id.
Qed.

Lemma get_mth_name_parts_join (m c t : string) :
  Py.free_of dot m → Py.free_of dot c → Py.free_of dot t →
  _get_mth_name_parts repr (m ++ "." ++ c ++ "." ++ t) = inr (m, c, t).
Proof.
  intros Hm Hc Ht. unfold _get_mth_name_parts.
  change (m ++ "." ++ c ++ "." ++ t) with (m ++ String dot (c ++ String dot t)).
  by rewrite !split_app, !split_free_id.
Qed.

Lemma cls_name_parts_spec (s : string) :
  match _get_cls_name_parts repr s with
  | inr (m, c) =>
      Py.count dot s = 1 ∧ s = m ++ "." ++ c ∧ Py.free_of dot m ∧ Py.free_of dot c
  | inl e =>
      Py.count dot s ≠ 1 ∧
      e = ValueError (repr s ++ " does not comply with: " ++
                      String dquote ("module.class" ++ String dquote "."))
  end.
Proof.
  pose proof (length_split dot s) as Hl. unfold _get_cls_name_parts.
  destruct (Py.split dot s) as [|p0 [|p1 [|p2 l]]] eqn:Hs; simpl in Hl;
    try (split; [lia|done]).
  by apply split_two.
Qed.

Lemma mth_name_parts_spec (s : string) :
  match _get_mth_name_parts repr s with
  | inr (m, c, t) =>
      Py.count dot s = 2 ∧ s = m ++ "." ++ c ++ "." ++ t ∧
      Py.free_of dot m ∧ Py.free_of dot c ∧ Py.free_of dot t
  | inl e =>
      Py.count dot s ≠ 2 ∧
      e = ValueError (repr s ++ " does not comply with: " ++
                      String dquote ("module.class.method" ++ String dquote "."))
  end.
Proof.
  pose proof (length_split dot s) as Hl. unfold _get_mth_name_parts.
  destruct (Py.split dot s) as [|p0 [|p1 [|p2 [|p3 l]]]] eqn:Hs; simpl in Hl;
    try (split; [lia|done]).
  by apply split_three.
Qed.

(** C4, as the code has it: [_get_cls_name_parts] returns the two
    segments of a name exactly when the name holds one dot, and the name is
    then the two segments joined by a dot; a segment may be empty.  With any
    other number of dots it raises [ValueError] with the message of line 140.
    [_get_mth_name_parts] does the same with two dots and three segments. *)
Theorem name_parts_by_segment_count (s : string) :
  match _get_cls_name_parts repr s with
  | inr (m, c) =>
      Py.count dot s = 1 ∧ s = m ++ "." ++ c ∧ Py.free_of dot m ∧ Py.free_of dot c
  | inl e =>
      Py.count dot s ≠ 1 ∧
      e = ValueError (repr s ++ " does not comply with: " ++
                      String dquote ("module.class" ++ String dquote "."))
  end ∧
  match _get_mth_name_parts repr s with
  | inr (m, c, t) =>
      Py.count dot s = 2 ∧ s = m ++ "." ++ c ++ "." ++ t ∧
      Py.free_of dot m ∧ Py.free_of dot c ∧ Py.free_of dot t
  | inl e =>
      Py.count dot s ≠ 2 ∧
      e = ValueError (repr s ++ " does not comply with: " ++
                      String dquote ("module.class.method" ++ String dquote "."))
  end.
Proof. split; [apply cls_name_parts_spec|apply mth_name_parts_spec]. Qed.

End NameParserFacts.

(** C4, the claim as written fails: a name with an empty segment is not
    rejected.  ["mod."] splits into ["mod"] and the empty string, and
    [_get_cls_name_parts] returns that pair. *)
Lemma cls_name_parts_accepts_empty_segment :
  Py.split dot "mod." = ["mod"; ""] ∧
  _get_cls_name_parts quote_repr "mod." = inr ("mod", "") ∧
  ¬ (∃ e, _get_cls_name_parts quote_repr "mod." = inl e).
Proof. repeat split. intros [e He]. discriminate He. Qed.

(** ** Running a method body *)

Lemma bind_inr {A B} (m : M A) (k : A → M B) self a self' :
  m self = (inr a, self') → (m ≫= k) self = k a self'.
Proof. intros H. unfold mbind, M_bind, bind. by rewrite H. Qed.

Lemma bind_inl {A B} (m : M A) (k : A → M B) self e self' :
  m self = (inl e, self') → (m ≫= k) self = (inl e, self').
Proof. intros H. unfold mbind, M_bind, bind. by rewrite H. Qed.

Lemma get_tree_Some self tree :
  _name_tree self = Some tree → get_tree self = (inr tree, self).
Proof. intros H. unfold get_tree. by rewrite H. Qed.

Lemma modify_tree_Some f self tree :
  _name_tree self = Some tree → modify_tree f self = (inr tt, set_name_tree (f tree) self).
Proof. intros H. unfold modify_tree. by rewrite H. Qed.

Lemma set_name_tree_twice t1 t2 self :
  set_name_tree t2 (set_name_tree t1 self) = set_name_tree t2 self.
Proof. done. Qed.

Lemma set_name_tree_id self tree :
  _name_tree self = Some tree → set_name_tree tree self = self.
Proof. destruct self as [t p]. simpl. by intros ->. Qed.

Lemma lift_getitem_Some {V B} (d : gmap string V) k v (f : V → M B) self :
  d !! k = Some v → (lift (getitem d k) ≫= f) self = f v self.
Proof. intros H. unfold mbind, M_bind, bind, lift, getitem. by rewrite H. Qed.

(** ** Deleting from the name tree *)

Section NameTreeDelete.

Variable repr : string → string.

Lemma del_cls_run self tree m c :
  _name_tree self = Some tree →
  _del_cls_in_name_tree repr m c self =
    match tree !! m with
    | None =>
        (inl (ValueError ("Cannot exclude " ++ repr (Py.join "." [m; c]) ++ ": " ++
                          repr m ++ " not found in modules list.")), self)
    | Some cs =>
        match cs !! c with
        | None =>
            (inl (ValueError ("Cannot exclude " ++ repr (Py.join "." [m; c]) ++ ": " ++
                              repr c ++ " not found in " ++ repr m ++ ".")), self)
        | Some _ => (inr tt, set_name_tree (tree_without_cls tree m c) self)
        end
    end.
Proof.
  intros Ht. unfold _del_cls_in_name_tree.
  rewrite (bind_inr _ _ _ _ _ (get_tree_Some _ _ Ht)).
  destruct (tree !! m) as [cs|] eqn:Hm; [|by rewrite bool_decide_eq_true_2].
  rewrite bool_decide_eq_false_2 by done.
  rewrite (lift_getitem_Some _ _ _ _ _ Hm).
  destruct (cs !! c) as [ms|] eqn:Hc; [|by rewrite bool_decide_eq_true_2].
  rewrite bool_decide_eq_false_2 by done.
  rewrite (bind_inr _ _ _ _ _ (modify_tree_Some _ _ _ Ht)).
  set (tree1 := alter (delete c) m tree).
  assert (_name_tree (set_name_tree tree1 self) = Some tree1) as Ht1 by done.
  rewrite (bind_inr _ _ _ _ _ (get_tree_Some _ _ Ht1)).
  assert (tree1 !! m = Some (delete c cs)) as Hm1.
  { unfold tree1. by rewrite lookup_alter_eq, Hm. }
  rewrite (lift_getitem_Some _ _ _ _ _ Hm1).
  unfold tree_without_cls. fold tree1. rewrite Hm1.
  destruct (decide (delete c cs = ∅)) as [He|He].
  - rewrite !bool_decide_eq_true_2 by (by rewrite ?He).
    by rewrite (modify_tree_Some _ _ _ Ht1).
  - rewrite !bool_decide_eq_false_2 by congruence. done.
Qed.

Lemma del_mth_run self tree m c t :
  _name_tree self = Some tree →
  _del_mth_in_name_tree repr m c t self =
    match tree !! m with
    | None =>
        (inl (ValueError ("Cannot exclude " ++ repr (Py.join "." [m; c; t]) ++ ": " ++
                          repr m ++ " not found in modules list.")), self)
    | Some cs =>
        match cs !! c with
        | None =>
            (inl (ValueError ("Cannot exclude " ++ repr (Py.join "." [m; c; t]) ++ ": " ++
                              repr c ++ " not found in " ++ repr m ++ ".")), self)
        | Some ms =>
            if bool_decide (t ∈ ms)
            then (inr tt, set_name_tree (tree_without_mth tree m c t) self)
            else
              (inl (ValueError ("Cannot exclude " ++ repr (Py.join "." [m; c; t]) ++ ": " ++
                                repr t ++ " not found in " ++ repr c ++ ".")), self)
        end
    end.
Proof.
  intros Ht. unfold _del_mth_in_name_tree.
  rewrite (bind_inr _ _ _ _ _ (get_tree_Some _ _ Ht)).
  destruct (tree !! m) as [cs|] eqn:Hm; [|by rewrite bool_decide_eq_true_2].
  rewrite bool_decide_eq_false_2 by done.
  rewrite (lift_getitem_Some _ _ _ _ _ Hm).
  destruct (cs !! c) as [ms|] eqn:Hc; [|by rewrite bool_decide_eq_true_2].
  rewrite bool_decide_eq_false_2 by done.
  rewrite (lift_getitem_Some _ _ _ _ _ Hc).
  destruct (decide (t ∈ ms)) as [Hin|Hin];
    [|by rewrite bool_decide_eq_true_2, bool_decide_eq_false_2].
  rewrite bool_decide_eq_false_2 by (by intros ?).
  rewrite bool_decide_eq_true_2 by done.
  rewrite (bind_inr _ _ _ _ _ (modify_tree_Some _ _ _ Ht)).
  unfold tree_without_mth.
  set (tree1 := alter (alter (λ s, s ∖ {[t]}) c) m tree).
  assert (_name_tree (set_name_tree tree1 self) = Some tree1) as Ht1 by done.
  rewrite (bind_inr _ _ _ _ _ (get_tree_Some _ _ Ht1)).
  assert (tree1 !! m = Some (alter (λ s, s ∖ {[t]}) c cs)) as Hm1.
  { unfold tree1. by rewrite lookup_alter_eq, Hm. }
  rewrite (lift_getitem_Some _ _ _ _ _ Hm1).
  assert (alter (λ s, s ∖ {[t]}) c cs !! c = Some (ms ∖ {[t]})) as Hc1.
  { by rewrite lookup_alter_eq, Hc. }
  rewrite (lift_getitem_Some _ _ _ _ _ Hc1).
  assert (get_cls tree1 m c = Some (ms ∖ {[t]})) as Hg1.
  { unfold get_cls. rewrite Hm1. simpl. done. }
  rewrite Hg1.
  set (tree2 := if bool_decide (Some (ms ∖ {[t]}) = Some ∅)
                then alter (delete c) m tree1 else tree1).
  assert (∃ cs2, tree2 !! m = Some cs2 ∧
     (if bool_decide (ms ∖ {[t]} = ∅) then modify_tree (alter (delete c) m) else mret tt)
       (set_name_tree tree1 self) = (inr tt, set_name_tree tree2 self)) as (cs2 & Hm2 & Hstep).
  { unfold tree2. destruct (decide (ms ∖ {[t]} = ∅)) as [He|He].
    - rewrite !bool_decide_eq_true_2 by (by rewrite ?He).
      rewrite (modify_tree_Some _ _ _ Ht1). eexists. split; [|done].
      by rewrite lookup_alter_eq, Hm1.
    - rewrite !bool_decide_eq_false_2 by congruence. eauto. }
  rewrite (bind_inr _ _ _ _ _ Hstep).
  assert (_name_tree (set_name_tree tree2 self) = Some tree2) as Ht2 by done.
  rewrite (bind_inr _ _ _ _ _ (get_tree_Some _ _ Ht2)).
  rewrite (lift_getitem_Some _ _ _ _ _ Hm2). rewrite Hm2.
  destruct (decide (cs2 = ∅)) as [He|He].
  - rewrite !bool_decide_eq_true_2 by (by rewrite ?He).
    by rewrite (modify_tree_Some _ _ _ Ht2).
  - rewrite !bool_decide_eq_false_2 by congruence. done.
Qed.

End NameTreeDelete.

Lemma tree_without_cls_lookup (tree : name_tree) m c cs m' :
  tree !! m = Some cs →
  tree_without_cls tree m c !! m' =
    if decide (m' = m)
    then (if decide (delete c cs = ∅) then None else Some (delete c cs))
    else tree !! m'.
Proof.
  intros Hm. unfold tree_without_cls.
  assert (alter (delete c) m tree !! m = Some (delete c cs)) as H1
    by (by rewrite lookup_alter_eq, Hm).
  rewrite H1. destruct (decide (m' = m)) as [->|Hne].
  - destruct (decide (delete c cs = ∅)) as [He|He].
    + rewrite bool_decide_eq_true_2 by (by rewrite He). apply lookup_delete_eq.
    + rewrite bool_decide_eq_false_2 by congruence. done.
  - destruct (bool_decide _).
    + by rewrite lookup_delete_ne, lookup_alter_ne.
    + by rewrite lookup_alter_ne.
Qed.

Lemma tree_without_mth_lookup (tree : name_tree) m c t cs ms m' :
  tree !! m = Some cs → cs !! c = Some ms →
  tree_without_mth tree m c t !! m' =
    if decide (m' = m)
    then
      let cs' := if decide (ms ∖ {[t]} = ∅) then delete c cs
                 else <[c := ms ∖ {[t]}]> cs in
      if decide (cs' = ∅) then None else Some cs'
    else tree !! m'.
Proof.
  intros Hm Hc. unfold tree_without_mth.
  set (tree1 := alter (alter (λ s, s ∖ {[t]}) c) m tree).
  assert (alter (λ s, s ∖ {[t]}) c cs = <[c := ms ∖ {[t]}]> cs) as Halt.
  { apply map_eq. intros k. destruct (decide (k = c)) as [->|Hk].
    - by rewrite lookup_alter_eq, lookup_insert_eq, Hc.
    - by rewrite lookup_alter_ne, lookup_insert_ne. }
  assert (tree1 !! m = Some (<[c := ms ∖ {[t]}]> cs)) as H1.
  { unfold tree1. rewrite lookup_alter_eq, Hm. simpl. by rewrite Halt. }
  assert (get_cls tree1 m c = Some (ms ∖ {[t]})) as Hg.
  { unfold get_cls. rewrite H1. simpl. apply lookup_insert_eq. }
  rewrite Hg. cbv zeta.
  set (tree2 := if bool_decide (Some (ms ∖ {[t]}) = Some ∅)
                then alter (delete c) m tree1 else tree1).
  set (cs' := if decide (ms ∖ {[t]} = ∅) then delete c cs else <[c := ms ∖ {[t]}]> cs).
  assert (tree2 !! m = Some cs') as H2.
  { unfold tree2, cs'. destruct (decide (ms ∖ {[t]} = ∅)) as [He|He].
    - rewrite bool_decide_eq_true_2 by (by rewrite He).
      rewrite lookup_alter_eq, H1. simpl. by rewrite delete_insert_eq.
    - rewrite bool_decide_eq_false_2 by congruence. done. }
  assert (∀ k, k ≠ m → tree2 !! k = tree !! k) as H2ne.
  { intros k Hk. unfold tree2, tree1. destruct (bool_decide _);
      by rewrite ?lookup_alter_ne. }
  rewrite H2. destruct (decide (m' = m)) as [->|Hne].
  - destruct (decide (cs' = ∅)) as [He|He].
    + rewrite bool_decide_eq_true_2 by (by rewrite He). apply lookup_delete_eq.
    + rewrite bool_decide_eq_false_2 by congruence. done.
  - destruct (bool_decide (Some cs' = Some ∅)).
    + rewrite lookup_delete_ne by done. by apply H2ne.
    + by apply H2ne.
Qed.

(** A deleted class is gone and every other class entry is untouched. *)
Lemma tree_without_cls_get_cls (tree : name_tree) m c cs m' c' :
  tree !! m = Some cs →
  get_cls (tree_without_cls tree m c) m' c' =
    if decide (m' = m ∧ c' = c) then None else get_cls tree m' c'.
Proof.
  intros Hm. unfold get_cls. rewrite (tree_without_cls_lookup _ _ _ _ _ Hm).
  destruct (decide (m' = m)) as [->|Hne].
  - rewrite Hm. simpl. destruct (decide (delete c cs = ∅)) as [He|He]; simpl.
    + destruct (decide (m = m ∧ c' = c)) as [_|Hn]; [done|].
      assert (c' ≠ c) by naive_solver.
      by rewrite <- (lookup_delete_ne cs c c'), He, lookup_empty.
    + destruct (decide (m = m ∧ c' = c)) as [[_ ->]|Hn].
      * apply lookup_delete_eq.
      * apply lookup_delete_ne. naive_solver.
  - destruct (decide (m' = m ∧ c' = c)) as [[? _]|_]; done.
Qed.

(** A deleted method leaves its class entry without it, or no entry when
    it was the last one; every other class entry is untouched. *)
Lemma tree_without_mth_get_cls (tree : name_tree) m c t cs ms m' c' :
  tree !! m = Some cs → cs !! c = Some ms →
  get_cls (tree_without_mth tree m c t) m' c' =
    if decide (m' = m ∧ c' = c)
    then (if decide (ms ∖ {[t]} = ∅) then None else Some (ms ∖ {[t]}))
    else get_cls tree m' c'.
Proof.
  intros Hm Hc. unfold get_cls. rewrite (tree_without_mth_lookup _ _ _ _ _ _ _ Hm Hc).
  destruct (decide (m' = m)) as [->|Hne];
    [|by destruct (decide (m' = m ∧ c' = c)) as [[? _]|_]].
  rewrite Hm. cbv zeta. simpl.
  set (cs' := if decide (ms ∖ {[t]} = ∅) then delete c cs else <[c := ms ∖ {[t]}]> cs).
  assert (cs' !! c' = if decide (m = m ∧ c' = c)
                      then (if decide (ms ∖ {[t]} = ∅) then None else Some (ms ∖ {[t]}))
                      else cs !! c') as Hl.
  { unfold cs'. destruct (decide (m = m ∧ c' = c)) as [[_ ->]|Hn].
    - destruct (decide (ms ∖ {[t]} = ∅)); [apply lookup_delete_eq|apply lookup_insert_eq].
    - assert (c ≠ c') by naive_solver.
      destruct (decide (ms ∖ {[t]} = ∅)); [by apply lookup_delete_ne|by apply lookup_insert_ne]. }
  destruct (decide (cs' = ∅)) as [He|He]; simpl; [|done].
  rewrite <- Hl, He. symmetry. apply lookup_empty.
Qed.

Lemma tree_without_cls_no_empty_branch (tree : name_tree) m c cs :
  tree !! m = Some cs → no_empty_branch tree → no_empty_branch (tree_without_cls tree m c).
Proof.
  intros Hm [Hmod Hcls]. split.
  - intros m' cs'. rewrite (tree_without_cls_lookup _ _ _ _ _ Hm).
    destruct (decide (m' = m)); [|by apply Hmod].
    destruct (decide (delete c cs = ∅)); [done|]. by intros [= <-].
  - intros m' c' ms'. rewrite (tree_without_cls_get_cls _ _ _ _ _ _ Hm).
    destruct (decide (m' = m ∧ c' = c)); [done|]. by apply Hcls.
Qed.

Lemma tree_without_mth_no_empty_branch (tree : name_tree) m c t cs ms :
  tree !! m = Some cs → cs !! c = Some ms →
  no_empty_branch tree → no_empty_branch (tree_without_mth tree m c t).
Proof.
  intros Hm Hc [Hmod Hcls]. split.
  - intros m' cs'. rewrite (tree_without_mth_lookup _ _ _ _ _ _ _ Hm Hc).
    destruct (decide (m' = m)); [|by apply Hmod]. cbv zeta.
    destruct (decide (_ = ∅)); [done|]. by intros [= <-].
  - intros m' c' ms'. rewrite (tree_without_mth_get_cls _ _ _ _ _ _ _ _ Hm Hc).
    destruct (decide (m' = m ∧ c' = c)); [|by apply Hcls].
    destruct (decide (ms ∖ {[t]} = ∅)); [done|]. by intros [= <-].
Qed.

Lemma tree_without_mth_has_mth (tree : name_tree) m c t cs ms m' c' t' :
  tree !! m = Some cs → cs !! c = Some ms →
  has_mth (tree_without_mth tree m c t) m' c' t' ↔
  has_mth tree m' c' t' ∧ ¬ (m' = m ∧ c' = c ∧ t' = t).
Proof.
  intros Hm Hc. unfold has_mth.
  rewrite (tree_without_mth_get_cls _ _ _ _ _ _ _ _ Hm Hc).
  destruct (decide (m' = m ∧ c' = c)) as [[-> ->]|Hne].
  - assert (get_cls tree m c = Some ms) as Hg by (unfold get_cls; by rewrite Hm).
    rewrite Hg. destruct (decide (ms ∖ {[t]} = ∅)) as [He|He].
    + split; [by intros (? & ? & ?)|]. intros [(ms' & [= <-] & Hin) Hn].
      exfalso. assert (t' ∈ ms ∖ {[t]}) as Hd by set_solver. rewrite He in Hd. set_solver.
    + split.
      * intros (ms' & [= <-] & Hin). split; [exists ms; set_solver|set_solver].
      * intros [(ms' & [= <-] & Hin) Hn]. eexists. split; [done|]. set_solver.
  - split; [intros H; split; [done|naive_solver]|by intros [H _]].
Qed.

(** ** C2, C9: deletion reports what is missing and fails without effect *)

Section NameTreeClaims.

Variable repr : string → string.

(** C2: on any name tree, [_del_cls_in_name_tree] and
    [_del_mth_in_name_tree] raise [ValueError] (the spec's NotFoundError)
    at the first level that is missing, module, then class, then method,
    with a message that holds the [repr] of the excluded name and of the
    missing identifier.  When the whole path exists the call returns and the
    class entry, or the method, is gone; every other class entry, and every
    other method, is as before. *)
Theorem delete_names_missing_level (self : DefaultTestLoader) (tree : name_tree)
    (m c t : string) :
  _name_tree self = Some tree →
  match tree !! m with
  | None =>
      _del_cls_in_name_tree repr m c self =
        (inl (ValueError ("Cannot exclude " ++ repr (m ++ "." ++ c) ++ ": " ++
                          repr m ++ " not found in modules list.")), self) ∧
      _del_mth_in_name_tree repr m c t self =
        (inl (ValueError ("Cannot exclude " ++ repr (m ++ "." ++ c ++ "." ++ t) ++ ": " ++
                          repr m ++ " not found in modules list.")), self)
  | Some cs =>
      match cs !! c with
      | None =>
          _del_cls_in_name_tree repr m c self =
            (inl (ValueError ("Cannot exclude " ++ repr (m ++ "." ++ c) ++ ": " ++
                              repr c ++ " not found in " ++ repr m ++ ".")), self) ∧
          _del_mth_in_name_tree repr m c t self =
            (inl (ValueError ("Cannot exclude " ++ repr (m ++ "." ++ c ++ "." ++ t) ++ ": " ++
                              repr c ++ " not found in " ++ repr m ++ ".")), self)
      | Some ms =>
          (∃ tree',
             _del_cls_in_name_tree repr m c self = (inr tt, set_name_tree tree' self) ∧
             ∀ m' c', get_cls tree' m' c' =
                      if decide (m' = m ∧ c' = c) then None else get_cls tree m' c') ∧
          (if decide (t ∈ ms)
           then ∃ tree',
             _del_mth_in_name_tree repr m c t self = (inr tt, set_name_tree tree' self) ∧
             (∀ m' c' t', has_mth tree' m' c' t' ↔
                          has_mth tree m' c' t' ∧ ¬ (m' = m ∧ c' = c ∧ t' = t)) ∧
             (∀ m' c', ¬ (m' = m ∧ c' = c) → get_cls tree' m' c' = get_cls tree m' c')
           else
             _del_mth_in_name_tree repr m c t self =
               (inl (ValueError ("Cannot exclude " ++ repr (m ++ "." ++ c ++ "." ++ t) ++
                                 ": " ++ repr t ++ " not found in " ++ repr c ++ ".")), self))
      end
  end.
Proof.
  intros Ht. rewrite (del_cls_run repr _ _ m c Ht), (del_mth_run repr _ _ m c t Ht).
  destruct (tree !! m) as [cs|] eqn:Hm; [|done].
  destruct (cs !! c) as [ms|] eqn:Hc; [|done]. split.
  - eexists. split; [done|]. intros m' c'. apply (tree_without_cls_get_cls _ _ _ _ _ _ Hm).
  - destruct (decide (t ∈ ms)) as [Hin|Hin].
    + rewrite bool_decide_eq_true_2 by done. eexists. split; [done|]. split.
      * intros m' c' t'. by eapply tree_without_mth_has_mth.
      * intros m' c' Hne. rewrite (tree_without_mth_get_cls _ _ _ _ _ _ _ _ Hm Hc).
        by rewrite decide_False.
    + by rewrite bool_decide_eq_false_2.
Qed.

(** C9: when [_del_cls_in_name_tree] or [_del_mth_in_name_tree] raises,
    the loader, and so its name tree, is exactly what it was before the
    call. *)
Theorem delete_failure_is_atomic (self : DefaultTestLoader) (m c t : string) (e : exn) :
  (fst (_del_cls_in_name_tree repr m c self) = inl e →
   snd (_del_cls_in_name_tree repr m c self) = self) ∧
  (fst (_del_mth_in_name_tree repr m c t self) = inl e →
   snd (_del_mth_in_name_tree repr m c t self) = self).
Proof.
  destruct (_name_tree self) as [tree|] eqn:Ht.
  - rewrite (del_cls_run repr _ _ m c Ht), (del_mth_run repr _ _ m c t Ht).
    destruct (tree !! m) as [cs|]; [|done].
    destruct (cs !! c) as [ms|]; [|done].
    split; [done|]. by destruct (bool_decide (t ∈ ms)).
  - unfold _del_cls_in_name_tree, _del_mth_in_name_tree, mbind, M_bind, bind, get_tree.
    by rewrite Ht.
Qed.

End NameTreeClaims.

(** ** Building the name tree *)

Lemma get_cls_insert (tree : name_tree) m cs m' c' :
  get_cls (<[m := cs]> tree) m' c' = if decide (m' = m) then cs !! c' else get_cls tree m' c'.
Proof.
  unfold get_cls. destruct (decide (m' = m)) as [->|Hne].
  - by rewrite lookup_insert_eq.
  - by rewrite lookup_insert_ne.
Qed.

Lemma mth_names_elem (self : DefaultTestLoader) (cls : pyclbr_Class) (t : string) :
  t ∈ _get_method_names_by_class self cls ↔
  is_Some (methods cls !! t) ∧ Py.startswith t (method_prefix self) = true.
Proof.
  unfold _get_method_names_by_class. rewrite list_elem_of_filter.
  rewrite merge_sort_Permutation.
  change (map fst (map_to_list (methods cls))) with ((map_to_list (methods cls)).*1).
  rewrite list_elem_of_fmap. split.
  - intros [Hp ([k z] & -> & Hin)]. apply elem_of_map_to_list in Hin. simpl. eauto.
  - intros [[z Hz] Hp]. split; [done|]. exists (t, z). split; [done|].
    by apply elem_of_map_to_list.
Qed.

Lemma classes_of_module_lookup (content : gmap string pyclbr_obj) c cls :
  _get_classes_of_module content !! c = Some cls ↔ content !! c = Some (PClass cls).
Proof.
  unfold _get_classes_of_module. rewrite lookup_omap.
  destruct (content !! c) as [[cls'| |]|]; simpl; naive_solver.
Qed.

Lemma foldl_add_methods (m c : string) (l : list string) :
  ∀ (tree : name_tree) cs ms,
    tree !! m = Some cs → cs !! c = Some ms →
    foldl (λ tree mth_name, alter (alter (λ s, s ∪ {[mth_name]}) c) m tree) tree l
    = <[m := <[c := ms ∪ list_to_set l]> cs]> tree.
Proof.
  induction l as [|a l IH]; intros tree cs ms Hm Hc; simpl.
  - rewrite (right_id_L ∅ (∪)). by rewrite (insert_id cs), insert_id.
  - rewrite (IH _ (alter (λ s, s ∪ {[a]}) c cs) (ms ∪ {[a]})).
    + apply map_eq. intros k. destruct (decide (k = m)) as [->|Hk].
      * rewrite !lookup_insert_eq. f_equal. apply map_eq. intros k.
        destruct (decide (k = c)) as [->|Hk].
        -- rewrite !lookup_insert_eq. f_equal. set_solver.
        -- by rewrite !lookup_insert_ne, lookup_alter_ne.
      * by rewrite !lookup_insert_ne, lookup_alter_ne.
    + by rewrite lookup_alter_eq, Hm.
    + by rewrite lookup_alter_eq, Hc.
Qed.

(** What one class contributes to the tree. *)
Lemma build_class_eq (self : DefaultTestLoader) f m (tree : name_tree) c cls :
  build_class self f m tree (c, cls) =
    if filtered_out f (Py.join "." [m; c]) then tree
    else if bool_decide (_get_method_names_by_class self cls = []) then tree
    else <[m := <[c := default ∅ (get_cls tree m c) ∪
                       list_to_set (_get_method_names_by_class self cls)]>
                (default ∅ (tree !! m))]> tree.
Proof.
  unfold build_class. destruct (filtered_out _ _); [done|].
  destruct (bool_decide (_ = [])); [done|].
  set (l := _get_method_names_by_class self cls).
  unfold get_cls. destruct (tree !! m) as [cs|] eqn:Hm.
  - rewrite (bool_decide_eq_false_2 (Some cs = None)) by done. rewrite Hm. simpl.
    destruct (cs !! c) as [ms|] eqn:Hc.
    + rewrite bool_decide_eq_false_2 by done. by apply foldl_add_methods.
    + rewrite bool_decide_eq_true_2 by done.
      rewrite (foldl_add_methods m c l _ (<[c := ∅]> cs) ∅).
      * apply map_eq. intros k. destruct (decide (k = m)) as [->|Hk].
        -- rewrite !lookup_insert_eq. f_equal. apply insert_insert_eq.
        -- by rewrite !lookup_insert_ne, lookup_alter_ne.
      * by rewrite lookup_alter_eq, Hm.
      * apply lookup_insert_eq.
  - rewrite (bool_decide_eq_true_2 (None = None)) by done. rewrite lookup_insert_eq. simpl.
    rewrite lookup_empty. rewrite bool_decide_eq_true_2 by done.
    rewrite (foldl_add_methods m c l _ (<[c := ∅]> ∅) ∅).
    + apply map_eq. intros k. destruct (decide (k = m)) as [->|Hk].
      * rewrite !lookup_insert_eq. f_equal. apply insert_insert_eq.
      * by rewrite !lookup_insert_ne, lookup_alter_ne, lookup_insert_ne.
    + by rewrite lookup_alter_eq, lookup_insert_eq.
    + apply lookup_insert_eq.
Qed.

Lemma build_class_has_mth (self : DefaultTestLoader) f m (tree : name_tree) c cls m' c' t' :
  has_mth (build_class self f m tree (c, cls)) m' c' t' ↔
  has_mth tree m' c' t' ∨
  (m' = m ∧ c' = c ∧ filtered_out f (Py.join "." [m; c]) = false ∧
   t' ∈ _get_method_names_by_class self cls).
Proof.
  rewrite build_class_eq. destruct (filtered_out _ _) eqn:Hf; [naive_solver|].
  destruct (decide (_get_method_names_by_class self cls = [])) as [He|He].
  { rewrite bool_decide_eq_true_2 by done. rewrite He.
    split; [by left|]. intros [?|(_ & _ & _ & Hin)]; [done|]. by apply elem_of_nil in Hin. }
  rewrite bool_decide_eq_false_2 by done. unfold has_mth.
  setoid_rewrite get_cls_insert.
  destruct (decide (m' = m)) as [->|Hm]; [|naive_solver].
  destruct (decide (c' = c)) as [->|Hc].
  - rewrite lookup_insert_eq. split.
    + intros (ms & [= <-] & Hin). apply elem_of_union in Hin as [Hin|Hin].
      * left. destruct (get_cls tree m c) as [ms|]; [eauto|]. simpl in Hin. set_solver.
      * right. by rewrite elem_of_list_to_set in Hin.
    + intros [(ms & Hg & Hin)|(_ & _ & _ & Hin)]; (eexists; split; [done|]).
      * rewrite Hg. simpl. set_solver.
      * apply elem_of_union_r. by rewrite elem_of_list_to_set.
  - rewrite lookup_insert_ne by done.
    assert (default ∅ (tree !! m) !! c' = get_cls tree m c') as ->.
    { unfold get_cls. destruct (tree !! m); [done|]. simpl. apply lookup_empty. }
    naive_solver.
Qed.

Lemma build_class_no_empty_branch (self : DefaultTestLoader) f m (tree : name_tree) item :
  no_empty_branch tree → no_empty_branch (build_class self f m tree item).
Proof.
  destruct item as [c cls]. intros [Hmod Hcls]. rewrite build_class_eq.
  destruct (filtered_out _ _); [done|].
  destruct (decide (_get_method_names_by_class self cls = [])) as [He|He].
  { by rewrite bool_decide_eq_true_2. }
  rewrite bool_decide_eq_false_2 by done. split.
  - intros m' cs'. destruct (decide (m' = m)) as [->|Hm].
    + rewrite lookup_insert_eq. intros [= <-]. apply insert_non_empty.
    + rewrite lookup_insert_ne by done. apply Hmod.
  - intros m' c' ms'. rewrite get_cls_insert.
    destruct (decide (m' = m)) as [->|Hm]; [|apply Hcls].
    destruct (decide (c' = c)) as [->|Hc].
    + rewrite lookup_insert_eq. intros [= <-].
      destruct (_get_method_names_by_class self cls) as [|a l]; [done|].
      simpl. set_solver.
    + rewrite lookup_insert_ne by done.
      assert (default ∅ (tree !! m) !! c' = get_cls tree m c') as ->.
      { unfold get_cls. destruct (tree !! m); [done|]. simpl. apply lookup_empty. }
      apply Hcls.
Qed.

Lemma build_classes_has_mth (self : DefaultTestLoader) f m items :
  ∀ (tree : name_tree) m' c' t',
    has_mth (foldl (build_class self f m) tree items) m' c' t' ↔
    has_mth tree m' c' t' ∨
    (m' = m ∧ filtered_out f (Py.join "." [m; c']) = false ∧
     ∃ cls, (c', cls) ∈ items ∧ t' ∈ _get_method_names_by_class self cls).
Proof.
  induction items as [|[c cls] items IH]; intros tree m' c' t'; cbn [foldl].
  - split; [by left|]. intros [?|(_ & _ & cls & Hin & _)]; [done|].
    by apply elem_of_nil in Hin.
  - rewrite IH, build_class_has_mth. split.
    + intros [[?|(-> & -> & Hf & Hin)]|(-> & Hf & cls' & Hin & Ht)]; [by left|right..].
      * split_and!; [done..|]. exists cls. split; [left|done].
      * split_and!; [done..|]. exists cls'. split; [by right|done].
    + intros [?|(-> & Hf & cls' & Hin & Ht)]; [by left; left|].
      apply elem_of_cons in Hin as [[= -> ->]|Hin].
      * left. right. done.
      * right. split_and!; [done..|]. by exists cls'.
Qed.

Lemma build_classes_no_empty_branch (self : DefaultTestLoader) f m items :
  ∀ tree : name_tree,
    no_empty_branch tree → no_empty_branch (foldl (build_class self f m) tree items).
Proof.
  induction items as [|item items IH]; intros tree Ht; cbn [foldl]; [done|].
  by apply IH, build_class_no_empty_branch.
Qed.

Section BuildFacts.

Variable readmodule_ex : string → result (gmap string pyclbr_obj).

Lemma build_module_run pkg f m (self : DefaultTestLoader) (tree : name_tree) :
  build_module readmodule_ex pkg f m (set_name_tree tree self) =
    match _inspect_module readmodule_ex pkg m with
    | inl e => (inl e, set_name_tree tree self)
    | inr content =>
        (inr tt, set_name_tree (foldl (build_class self f m) tree
                                      (map_to_list (_get_classes_of_module content))) self)
    end.
Proof.
  unfold build_module, mbind, M_bind, bind, lift, get_self.
  destruct (_inspect_module readmodule_ex pkg m) as [e|content]; [done|].
  destruct (decide (_get_classes_of_module content = ∅)) as [He|He].
  - rewrite bool_decide_eq_true_2 by done. rewrite He, map_to_list_empty. done.
  - rewrite bool_decide_eq_false_2 by done. done.
Qed.

(** What one module contributes: its declared methods that pass the
    class filter. *)
Lemma build_module_has_mth pkg f m (self : DefaultTestLoader) (tree : name_tree)
    content m' c' t' :
  _inspect_module readmodule_ex pkg m = inr content →
  has_mth (foldl (build_class self f m) tree
                 (map_to_list (_get_classes_of_module content))) m' c' t' ↔
  has_mth tree m' c' t' ∨
  (m' = m ∧ filtered_out f (Py.join "." [m; c']) = false ∧
   declared readmodule_ex self pkg m c' t').
Proof.
  intros Hi. rewrite build_classes_has_mth. unfold declared. rewrite Hi.
  split; (intros [?|(-> & Hf & H)]; [by left|right; split_and!; [done..|]]).
  - destruct H as (cls & Hin & Ht). apply elem_of_map_to_list in Hin.
    apply classes_of_module_lookup in Hin. apply mth_names_elem in Ht as [? ?].
    by exists content, cls.
  - destruct H as (content' & cls & [= <-] & Hc & Hs & Hp).
    exists cls. split.
    + by apply elem_of_map_to_list, classes_of_module_lookup.
    + by apply mth_names_elem.
Qed.

Lemma build_loop_run pkg f (self : DefaultTestLoader) (l : list string) :
  ∀ tree : name_tree,
    (∀ m, m ∈ l → ∃ content, _inspect_module readmodule_ex pkg m = inr content) →
    ∃ tree' : name_tree,
      for_ l (build_module readmodule_ex pkg f) (set_name_tree tree self)
        = (inr tt, set_name_tree tree' self) ∧
      ∀ m c t, has_mth tree' m c t ↔
               has_mth tree m c t ∨
               (m ∈ l ∧ filtered_out f (Py.join "." [m; c]) = false ∧
                declared readmodule_ex self pkg m c t).
Proof.
  induction l as [|a l IH]; intros tree Hok.
  - exists tree. split; [done|]. intros m c t. split; [by left|].
    intros [?|[Hin _]]; [done|]. by apply elem_of_nil in Hin.
  - destruct (Hok a) as [content Hc]; [left|].
    destruct (IH (foldl (build_class self f a) tree
                        (map_to_list (_get_classes_of_module content))))
      as (tree' & Hrun & Hhas).
    { intros m Hm. apply Hok. by right. }
    exists tree'. split.
    + cbn [for_]. erewrite bind_inr; [exact Hrun|].
      by rewrite build_module_run, Hc.
    + intros m c t. rewrite Hhas, (build_module_has_mth _ _ _ _ _ _ _ _ _ Hc).
      split.
      * intros [[?|(-> & ? & ?)]|(? & ? & ?)]; [by left|right..].
        -- split_and!; [left|done..].
        -- split_and!; [by right|done..].
      * intros [?|(Hin & ? & ?)]; [by left; left|].
        apply elem_of_cons in Hin as [->|Hin]; [left; right|right]; done.
Qed.

Lemma build_loop_no_empty_branch pkg f (self : DefaultTestLoader) (l : list string) :
  ∀ tree : name_tree,
    no_empty_branch tree →
    ∃ tree' : name_tree,
      snd (for_ l (build_module readmodule_ex pkg f) (set_name_tree tree self))
        = set_name_tree tree' self ∧
      no_empty_branch tree'.
Proof.
  induction l as [|a l IH]; intros tree Ht.
  - by exists tree.
  - cbn [for_]. unfold mbind, M_bind, bind. rewrite build_module_run.
    destruct (_inspect_module readmodule_ex pkg a) as [e|content].
    + by exists tree.
    + apply IH. by apply build_classes_no_empty_branch.
Qed.

Lemma has_mth_empty m c t : ¬ has_mth ∅ m c t.
Proof. intros (ms & Hg & _). unfold get_cls in Hg. by rewrite lookup_empty in Hg. Qed.

Lemma no_empty_branch_empty : no_empty_branch ∅.
Proof.
  split.
  - intros m cs. by rewrite lookup_empty.
  - intros m c ms. unfold get_cls. by rewrite lookup_empty.
Qed.

(** When every module can be inspected, [_build_name_tree] returns, and
    the tree holds the declared methods of those modules that pass the
    class filter. *)
Lemma build_name_tree_run pkg f (self : DefaultTestLoader) (mod_names : gset string) :
  (∀ m, m ∈ mod_names → ∃ content, _inspect_module readmodule_ex pkg m = inr content) →
  ∃ tree : name_tree,
    _build_name_tree readmodule_ex pkg mod_names f self = (inr tt, set_name_tree tree self) ∧
    (∀ m c t, has_mth tree m c t ↔
              m ∈ mod_names ∧ filtered_out f (Py.join "." [m; c]) = false ∧
              declared readmodule_ex self pkg m c t) ∧
    no_empty_branch tree.
Proof.
  intros Hok. unfold _build_name_tree.
  destruct (build_loop_run pkg f self (elements mod_names) ∅) as (tree & Hrun & Hhas).
  { intros m Hm. apply Hok. by apply elem_of_elements. }
  exists tree. split; [done|]. split.
  - intros m c t. rewrite Hhas, elem_of_elements. pose proof (has_mth_empty m c t). tauto.
  - destruct (build_loop_no_empty_branch pkg f self (elements mod_names) ∅ no_empty_branch_empty)
      as (tree' & Hsnd & Hne).
    rewrite Hrun in Hsnd. simpl in Hsnd. by injection Hsnd as <-.
Qed.

(** Whatever the outcome, the tree [_build_name_tree] leaves has no empty
    branch. *)
Lemma build_name_tree_no_empty_branch pkg f (self : DefaultTestLoader)
    (mod_names : gset string) :
  ∃ tree : name_tree,
    _name_tree (snd (_build_name_tree readmodule_ex pkg mod_names f self)) = Some tree ∧
    no_empty_branch tree.
Proof.
  unfold _build_name_tree.
  destruct (build_loop_no_empty_branch pkg f self (elements mod_names) ∅ no_empty_branch_empty)
    as (tree' & Hsnd & Hne).
  exists tree'. by rewrite Hsnd.
Qed.

End BuildFacts.

(** ** Flattening the name tree *)

Lemma string_app_assoc (a b c : string) : (a ++ b) ++ c = a ++ b ++ c.
Proof.
  induction a as [|x a IH]; [reflexivity|].
  change (String x ((a ++ b) ++ c) = String x (a ++ b ++ c)). by rewrite IH.
Qed.

Lemma truthy_dotted_app (a b : string) : Py.truthy (a ++ "." ++ b) = true.
Proof. by destruct a. Qed.

Lemma truthy_true_iff (s : string) : Py.truthy s = true ↔ s ≠ "".
Proof. by destruct s. Qed.

(** Three nested calls of [dotted] spell the full name, unless there is
    neither a package nor a module name to start from. *)
Lemma dotted_full_name (pkg : option string) (m c t : string) :
  Py.truthy_opt pkg = true ∨ m ≠ "" →
  dotted (Some (dotted (Some (dotted pkg m)) c)) t = full_name pkg (m, c, t).
Proof.
  intros Hok. unfold full_name.
  assert (∀ p, dotted (Some (dotted (Some (p ++ "." ++ m)) c)) t
               = p ++ "." ++ m ++ "." ++ c ++ "." ++ t) as Hp.
  { intros p. unfold dotted. cbn [Py.join]. rewrite !truthy_dotted_app.
    rewrite !string_app_assoc. done. }
  assert (m ≠ "" → dotted (Some (dotted (Some m) c)) t = m ++ "." ++ c ++ "." ++ t) as Hm.
  { intros Hne. unfold dotted. cbn [Py.join].
    rewrite (proj2 (truthy_true_iff m) Hne), truthy_dotted_app.
    by rewrite !string_app_assoc. }
  destruct pkg as [p|]; simpl in *.
  - destruct (Py.truthy p) eqn:Hp'.
    + apply Hp.
    + apply Hm. by destruct Hok.
  - apply Hm. by destruct Hok.
Qed.

Lemma foldl_append_names (p : option string) (l : list string) :
  ∀ acc, foldl (λ acc name, acc ++ [dotted p name])%list acc l
         = (acc ++ (dotted p <$> l))%list.
Proof.
  induction l as [|a l IH]; intros acc; simpl.
  - by rewrite (right_id_L [] (++)%list).
  - by rewrite IH, <- (assoc_L (++)%list).
Qed.

Lemma foldr_append_bind {X} (f : X → list string → list string) (g : X → list string)
    (l : list X) (acc : list string) :
  (∀ x acc, f x acc = (acc ++ g x)%list) →
  foldr f acc l = (acc ++ (reverse l ≫= g))%list.
Proof.
  intros Hf. induction l as [|x l IH]; simpl.
  - by rewrite (right_id_L [] (++)%list).
  - rewrite Hf, IH, reverse_cons, bind_app, bind_singleton.
    by rewrite (assoc_L (++)%list).
Qed.

Lemma dfs_classes (p : option string) (cs : gmap string (gset string)) (acc : list string) :
  _get_dotted_names_dfs (PyDict (PySet <$> cs)) p acc
  = (acc ++ (reverse (map_to_list cs) ≫= class_names p))%list.
Proof.
  cbn [_get_dotted_names_dfs]. rewrite map_fold_fmap, map_fold_foldr.
  apply foldr_append_bind. intros [c ms] acc'. unfold class_names, compose.
  cbn [uncurry _get_dotted_names_dfs fst snd]. apply foldl_append_names.
Qed.

Lemma dfs_name_tree (p : option string) (tree : name_tree) (acc : list string) :
  _get_dotted_names_dfs (pytree_of tree) p acc
  = (acc ++ (reverse (map_to_list tree) ≫= module_names p))%list.
Proof.
  unfold pytree_of. cbn [_get_dotted_names_dfs]. rewrite map_fold_fmap, map_fold_foldr.
  apply foldr_append_bind. intros [m cs] acc'. apply dfs_classes.
Qed.

Lemma bind_Permutation_ext {X Y} (f g : X → list Y) (l : list X) :
  (∀ x, x ∈ l → f x ≡ₚ g x) → l ≫= f ≡ₚ l ≫= g.
Proof.
  induction l as [|x l IH]; intros H; [done|].
  rewrite !bind_cons. rewrite (H x) by left. rewrite IH; [done|].
  intros y Hy. apply H. by right.
Qed.

Lemma fmap_bind_list {X Y Z} (h : Y → Z) (g : X → list Y) (l : list X) :
  h <$> (l ≫= g) = l ≫= (λ x, h <$> g x).
Proof.
  induction l as [|x l IH]; [done|]. by rewrite !bind_cons, fmap_app, IH.
Qed.

(** The traversal appends one name per leaf. *)
Lemma flat_names_leaves (p : option string) (tree : name_tree) :
  reverse (map_to_list tree) ≫= module_names p ≡ₚ leaf_name p <$> leaves tree.
Proof.
  rewrite reverse_Permutation. unfold leaves. rewrite fmap_bind_list.
  apply bind_Permutation_ext. intros [m cs] _. unfold module_names. cbn [fst snd].
  rewrite reverse_Permutation, fmap_bind_list.
  apply bind_Permutation_ext. intros [c ms] _. unfold class_names. cbn [fst snd].
  rewrite <- list_fmap_compose. done.
Qed.

Lemma elem_of_leaves (tree : name_tree) (m c t : string) :
  (m, c, t) ∈ leaves tree ↔ has_mth tree m c t.
Proof.
  unfold leaves, has_mth, get_cls. rewrite list_elem_of_bind. split.
  - intros ([m' cs] & Hin & Hm). apply elem_of_map_to_list in Hm.
    apply list_elem_of_bind in Hin as ([c' ms] & Hin & Hc).
    apply elem_of_map_to_list in Hc.
    apply list_elem_of_fmap in Hin as (t' & Heq & Ht). simplify_eq.
    apply elem_of_elements in Ht. exists ms. rewrite Hm. by split.
  - intros (ms & Hg & Ht). destruct (tree !! m) as [cs|] eqn:Hm; [|done].
    simpl in Hg. exists (m, cs). split; [|by apply elem_of_map_to_list].
    apply list_elem_of_bind. exists (c, ms). split; [|by apply elem_of_map_to_list].
    apply list_elem_of_fmap. exists t. split; [done|]. by apply elem_of_elements.
Qed.

Lemma NoDup_leaves (tree : name_tree) : NoDup (leaves tree).
Proof.
  unfold leaves. apply NoDup_bind.
  - intros [m1 cs1] [m2 cs2] [[m c] t] H1 H2 Hy1 Hy2.
    apply elem_of_map_to_list in H1, H2.
    apply list_elem_of_bind in Hy1 as ([c1 ms1] & Hy1 & _).
    apply list_elem_of_bind in Hy2 as ([c2 ms2] & Hy2 & _).
    apply list_elem_of_fmap in Hy1 as (t1 & Heq1 & _).
    apply list_elem_of_fmap in Hy2 as (t2 & Heq2 & _).
    simplify_eq. done.
  - intros [m cs] Hm. apply NoDup_bind.
    + intros [c1 ms1] [c2 ms2] [[m' c] t] H1 H2 Hy1 Hy2.
      apply elem_of_map_to_list in H1, H2.
      apply list_elem_of_fmap in Hy1 as (t1 & Heq1 & _).
      apply list_elem_of_fmap in Hy2 as (t2 & Heq2 & _).
      simplify_eq. done.
    + intros [c ms] _. apply NoDup_fmap_2; [|apply NoDup_elements].
      intros t1 t2 Heq. by simplify_eq.
    + apply NoDup_map_to_list.
  - apply NoDup_map_to_list.
Qed.

Lemma flatten_run (pkg : option string) (self : DefaultTestLoader) (tree : name_tree) :
  _name_tree self = Some tree →
  ∃ names,
    _get_full_method_names_from_tree pkg self = (inr names, self) ∧
    names ≡ₚ leaf_name pkg <$> leaves tree.
Proof.
  intros Ht. unfold _get_full_method_names_from_tree.
  rewrite (bind_inr _ _ _ _ _ (get_tree_Some _ _ Ht)).
  eexists. split; [reflexivity|]. rewrite dfs_name_tree. simpl. apply flat_names_leaves.
Qed.

Lemma fmap_ext_elem_of {X Y} (f g : X → Y) (l : list X) :
  (∀ x, x ∈ l → f x = g x) → f <$> l = g <$> l.
Proof.
  induction l as [|x l IH]; intros H; [done|]. csimpl.
  rewrite (H x) by left. rewrite IH; [done|]. intros y Hy. apply H. by right.
Qed.

(** ** C1, C3: the built tree and its flattening *)

Section FlattenClaim.

Variable readmodule_ex : string → result (gmap string pyclbr_obj).


End FlattenClaim.

Section BuildClaims.

Variable repr : string → string.
Variable readmodule_ex : string → result (gmap string pyclbr_obj).

(** C3: the tree [_build_name_tree] leaves in the loader has no module
    entry without a class and no class entry without a method, and a
    [_del_cls_in_name_tree] or [_del_mth_in_name_tree] that returns keeps a
    tree that way. *)
Theorem name_tree_has_no_empty_branch :
  (∀ (self : DefaultTestLoader) pkg (mod_names : gset string) f,
     ∃ tree : name_tree,
       _name_tree (snd (_build_name_tree readmodule_ex pkg mod_names f self)) = Some tree ∧
       no_empty_branch tree) ∧
  (∀ (self self' : DefaultTestLoader) (tree : name_tree) m c,
     _name_tree self = Some tree → no_empty_branch tree →
     _del_cls_in_name_tree repr m c self = (inr tt, self') →
     ∃ tree' : name_tree, _name_tree self' = Some tree' ∧ no_empty_branch tree') ∧
  (∀ (self self' : DefaultTestLoader) (tree : name_tree) m c t,
     _name_tree self = Some tree → no_empty_branch tree →
     _del_mth_in_name_tree repr m c t self = (inr tt, self') →
     ∃ tree' : name_tree, _name_tree self' = Some tree' ∧ no_empty_branch tree').
Proof.
  split_and!.
  - intros. apply build_name_tree_no_empty_branch.
  - intros self self' tree m c Ht Hne. rewrite (del_cls_run repr _ _ m c Ht).
    destruct (tree !! m) as [cs|] eqn:Hm; [|done].
    destruct (cs !! c) as [ms|] eqn:Hc; [|done].
    intros [= <-]. eexists. split; [done|]. by eapply tree_without_cls_no_empty_branch.
  - intros self self' tree m c t Ht Hne. rewrite (del_mth_run repr _ _ m c t Ht).
    destruct (tree !! m) as [cs|] eqn:Hm; [|done].
    destruct (cs !! c) as [ms|] eqn:Hc; [|done].
    destruct (bool_decide (t ∈ ms)); [|done].
    intros [= <-]. eexists. split; [done|]. by eapply tree_without_mth_no_empty_branch.
Qed.

End BuildClaims.

(** ** C10: exclusion lists are applied as sets *)

Section ExceptClaims.

Variable repr : string → string.


End ExceptClaims.

(** ** C6: method granularity *)

Section ResolverFacts.

Variable repr : string → string.
Variable readmodule_ex : string → result (gmap string pyclbr_obj).

Lemma check_method_names_spec (l : list string) :
  (Forall (λ x, Py.count dot x = 2) l → check_method_names repr l = inr tt) ∧
  (Exists (λ x, Py.count dot x ≠ 2) l →
   ∃ msg, check_method_names repr l = inl (ValueError msg)).
Proof.
  induction l as [|x l [IH1 IH2]]; simpl.
  - split; [done|]. by intros H%Exists_nil.
  - pose proof (mth_name_parts_spec repr x) as Hx.
    destruct (_get_mth_name_parts repr x) as [e|[[m c] t]].
    + destruct Hx as [Hne ->]. split; [|eauto].
      intros H%Forall_cons_1. by destruct H.
    + destruct Hx as (Hc & _). split.
      * intros H%Forall_cons_1. apply IH1, H.
      * intros H%Exists_cons. destruct H as [H|H]; [done|by apply IH2].
Qed.

Lemma parse_group_method_run (pkg : option string) (g : group) (l : list string)
    (self : DefaultTestLoader) :
  granularity g = "method" → methods_ g = Some l →
  parse_group repr readmodule_ex pkg g self =
    match check_method_names repr (elements (list_to_set l : gset string)) with
    | inl e => (inl e, self)
    | inr _ =>
        (inr match pkg with
             | Some p => if Py.truthy p
                         then map (λ x, p ++ "." ++ x) (elements (list_to_set l : gset string))
                         else elements (list_to_set l : gset string)
             | None => elements (list_to_set l : gset string)
             end, self)
    end.
Proof.
  intros Hg Hl. unfold parse_group. rewrite Hg, Hl. simpl.
  unfold mbind, M_bind, bind, lift. simpl.
  by destruct (check_method_names repr _).
Qed.

(** C6: a group of granularity [method] checks that each target name has
    three dotted segments and raises [ValueError] when one has not;
    otherwise it returns the target names, each prefixed with the package
    and a dot when a package is set and unchanged when none is, and it
    neither inspects a module nor touches the name tree. *)
Theorem method_granularity_takes_names (pkg : option string) (g : group) (l : list string)
    (self : DefaultTestLoader) :
  granularity g = "method" → methods_ g = Some l →
  (Forall (λ x, Py.count dot x = 2) l →
   ∃ names,
     parse_group repr readmodule_ex pkg g self = (inr names, self) ∧
     ∀ y, y ∈ names ↔
          ∃ x, x ∈ l ∧
               y = match pkg with
                   | Some p => if Py.truthy p then p ++ "." ++ x else x
                   | None => x
                   end) ∧
  (Exists (λ x, Py.count dot x ≠ 2) l →
   ∃ msg, parse_group repr readmodule_ex pkg g self = (inl (ValueError msg), self)).
Proof.
  intros Hg Hl. rewrite (parse_group_method_run pkg g l self Hg Hl).
  destruct (check_method_names_spec (elements (list_to_set l : gset string))) as [Hok Hbad].
  assert (∀ x, x ∈ elements (list_to_set l : gset string) ↔ x ∈ l) as Hel.
  { intros x. by rewrite elem_of_elements, elem_of_list_to_set. }
  split.
  - intros Hall. rewrite Hok.
    2:{ apply Forall_forall. intros x Hx%Hel. by eapply Forall_forall in Hall. }
    eexists. split; [done|]. intros y.
    destruct pkg as [p|]; [destruct (Py.truthy p)|].
    + rewrite list_elem_of_fmap. split; intros (x & H1 & H2); exists x; split;
        try done; by apply Hel.
    + rewrite Hel. naive_solver.
    + rewrite Hel. naive_solver.
  - intros Hex. destruct Hbad as [msg ->]; [|by eauto].
    apply Exists_exists in Hex as (x & Hx & Hc).
    apply Exists_exists. exists x. by rewrite Hel.
Qed.

End ResolverFacts.

(** ** The method prefix is never reassigned *)

Lemma keeps_ret {A} (a : A) : keeps_prefix (mret a).
Proof. by intros self. Qed.

Lemma keeps_raise {A} (e : exn) : keeps_prefix (raise (A:=A) e).
Proof. by intros self. Qed.

Lemma keeps_lift {A} (r : result A) : keeps_prefix (lift r).
Proof. by intros self. Qed.

Lemma keeps_get_tree : keeps_prefix get_tree.
Proof. intros self. unfold get_tree. by destruct (_name_tree self). Qed.

Lemma keeps_get_self : keeps_prefix get_self.
Proof. by intros self. Qed.

Lemma keeps_modify_tree f : keeps_prefix (modify_tree f).
Proof. intros self. unfold modify_tree. by destruct (_name_tree self). Qed.

Lemma keeps_bind {A B} (m : M A) (k : A → M B) :
  keeps_prefix m → (∀ a, keeps_prefix (k a)) → keeps_prefix (m ≫= k).
Proof.
  intros Hm Hk self. unfold mbind, M_bind, bind. specialize (Hm self).
  destruct (m self) as [[e|a] self']; simpl in *; [done|].
  by rewrite Hk.
Qed.

Lemma keeps_for {X} (l : list X) (body : X → M unit) :
  (∀ x, keeps_prefix (body x)) → keeps_prefix (for_ l body).
Proof.
  intros Hb. induction l as [|x l IH]; [apply keeps_ret|].
  cbn [for_]. apply keeps_bind; [apply Hb|by intros _].
Qed.

Create HintDb keeps.
#[local] Hint Resolve keeps_ret keeps_raise keeps_lift keeps_get_tree keeps_get_self
  keeps_modify_tree : keeps.

Ltac keeps_step :=
  match goal with
  | |- keeps_prefix (if ?b then _ else _) => destruct b
  | |- keeps_prefix (let '(_, _) := ?p in _) => destruct p
  | |- keeps_prefix (match ?o with Some _ => _ | None => _ end) => destruct o
  | |- keeps_prefix (_ ≫= _) => apply keeps_bind; [|intros]
  | |- keeps_prefix (for_ _ _) => apply keeps_for; intros
  | |- keeps_prefix _ => solve [auto with keeps]
  end.

Section KeepsPrefix.

Variable repr : string → string.
Variable readmodule_ex : string → result (gmap string pyclbr_obj).

Lemma keeps_del_cls m c : keeps_prefix (_del_cls_in_name_tree repr m c).
Proof. unfold _del_cls_in_name_tree. repeat keeps_step. Qed.

Lemma keeps_del_mth m c t : keeps_prefix (_del_mth_in_name_tree repr m c t).
Proof. unfold _del_mth_in_name_tree. repeat keeps_step. Qed.

Lemma keeps_del_except_classes l : keeps_prefix (_del_except_classes_in_name_tree repr l).
Proof.
  unfold _del_except_classes_in_name_tree. repeat keeps_step. apply keeps_del_cls.
Qed.

Lemma keeps_del_except_methods l : keeps_prefix (_del_except_methods_in_name_tree repr l).
Proof.
  unfold _del_except_methods_in_name_tree. repeat keeps_step. apply keeps_del_mth.
Qed.

Lemma keeps_build pkg mods f : keeps_prefix (_build_name_tree readmodule_ex pkg mods f).
Proof.
  intros self. unfold _build_name_tree.
  change (method_prefix self) with (method_prefix (set_name_tree ∅ self)).
  apply keeps_for. intros m. unfold build_module. repeat keeps_step.
Qed.

Lemma keeps_flatten pkg : keeps_prefix (_get_full_method_names_from_tree pkg).
Proof. unfold _get_full_method_names_from_tree. repeat keeps_step. Qed.

Lemma keeps_parse_group pkg g : keeps_prefix (parse_group repr readmodule_ex pkg g).
Proof.
  pose proof keeps_del_except_classes. pose proof keeps_del_except_methods.
  pose proof keeps_build. pose proof keeps_flatten.
  unfold parse_group, when_present. repeat keeps_step; auto.
Qed.

End KeepsPrefix.

(** ** C7, C8: the entry of a suite *)

Section SuiteFacts.

Variable repr : string → string.
Variable readmodule_ex : string → result (gmap string pyclbr_obj).

Lemma lift_bind_run {A B} (r : result A) (k : A → M B) self :
  (lift r ≫= k) self = match r with inl e => (inl e, self) | inr a => k a self end.
Proof. unfold mbind, M_bind, bind, lift. by destruct r. Qed.

Lemma build_name_tree_indep pkg mods f (self1 self2 : DefaultTestLoader) :
  method_prefix self1 = method_prefix self2 →
  _build_name_tree readmodule_ex pkg mods f self1 =
  _build_name_tree readmodule_ex pkg mods f self2.
Proof. unfold _build_name_tree, set_name_tree. by intros ->. Qed.

Lemma build_bind_indep {B} pkg mods f (k : unit → M B) (self1 self2 : DefaultTestLoader) :
  method_prefix self1 = method_prefix self2 →
  (_build_name_tree readmodule_ex pkg mods f ≫= k) self1 =
  (_build_name_tree readmodule_ex pkg mods f ≫= k) self2.
Proof.
  intros H. unfold mbind, M_bind, bind. by rewrite (build_name_tree_indep _ _ _ _ _ H).
Qed.

(** What a group resolves to does not depend on the tree an earlier
    group left in the loader. *)
Lemma parse_group_indep pkg g (self1 self2 : DefaultTestLoader) :
  method_prefix self1 = method_prefix self2 →
  fst (parse_group repr readmodule_ex pkg g self1) =
  fst (parse_group repr readmodule_ex pkg g self2).
Proof.
  intros H. unfold parse_group.
  destruct (String.eqb (granularity g) "module").
  { rewrite !lift_bind_run. destruct (getkey "modules" (modules g)); [done|].
    by rewrite (build_bind_indep _ _ _ _ _ _ H). }
  destruct (String.eqb (granularity g) "class").
  { rewrite !lift_bind_run. destruct (getkey "classes" (classes g)); [done|].
    rewrite !lift_bind_run. destruct (class_modules repr _ ∅); [done|].
    by rewrite (build_bind_indep _ _ _ _ _ _ H). }
  destruct (String.eqb (granularity g) "method"); [|done].
  rewrite !lift_bind_run. destruct (getkey "methods" (methods_ g)); [done|].
  rewrite !lift_bind_run. by destruct (check_method_names repr _).
Qed.

Lemma parse_groups_run pkg (gs : list (string * group)) :
  ∀ (acc : list string) (self : DefaultTestLoader),
    (∀ k g, (k, g) ∈ gs → disabled g = false →
            ∃ names, fst (parse_group repr readmodule_ex pkg g self) = inr names) →
    ∃ self',
      parse_groups repr readmodule_ex pkg gs acc self =
        (inr (acc ++ (filter (λ kg, disabled kg.2 = false) gs ≫=
                      λ kg, group_names (parse_group repr readmodule_ex pkg kg.2) self))%list,
         self') ∧
      method_prefix self' = method_prefix self.
Proof.
  induction gs as [|[k g] gs IH]; intros acc self Hok.
  - exists self. split; [|done]. simpl. by rewrite (right_id_L [] (++)%list).
  - cbn [parse_groups]. destruct (disabled g) eqn:Hd.
    + destruct (IH acc self) as (self' & Hrun & Hp).
      { intros k' g' Hin. apply (Hok k'). by right. }
      exists self'. split; [|done]. rewrite Hrun.
      rewrite filter_cons_False by (simpl; congruence). done.
    + destruct (Hok k g) as [names Hn]; [left|done|].
      destruct (parse_group repr readmodule_ex pkg g self) as [r self1] eqn:Hg.
      simpl in Hn. subst r.
      assert (method_prefix self1 = method_prefix self) as Hp1.
      { pose proof (keeps_parse_group repr readmodule_ex pkg g self) as Hk.
        by rewrite Hg in Hk. }
      destruct (IH (acc ++ names)%list self1) as (self' & Hrun & Hp).
      { intros k' g' Hin Hd'. rewrite (parse_group_indep pkg g' self1 self Hp1).
        apply (Hok k'); [by right|done]. }
      exists self'. split; [|congruence].
      rewrite (bind_inr _ _ _ _ _ Hg), Hrun.
      rewrite filter_cons_True by done. rewrite bind_cons.
      unfold group_names at 2. cbn [snd]. rewrite Hg. cbn [fst].
      rewrite <- (assoc_L (++)%list).
      rewrite (list_bind_ext
                 (λ kg, group_names (parse_group repr readmodule_ex pkg kg.2) self1)
                 (λ kg, group_names (parse_group repr readmodule_ex pkg kg.2) self)
                 _ (filter (λ kg, disabled kg.2 = false) gs)); [done| |done].
      intros [k' g']. unfold group_names. cbn [snd].
      by rewrite (parse_group_indep pkg g' self1 self Hp1).
Qed.

Lemma parse_suite_package (s : suite) (self self' : DefaultTestLoader) (r : parsed_suite) :
  parse_suite repr readmodule_ex s self = (inr r, self') →
  res_package r = match package s with
                  | Some p => if Py.truthy p then p else "None"
                  | None => "None"
                  end.
Proof.
  unfold parse_suite, mbind, M_bind, bind.
  destruct (parse_groups _ _ _ _ _ _) as [[e|names] self1]; [done|].
  intros [= <- _]. simpl. unfold pkg_name_of.
  destruct (package s) as [p|]; [|done]. by destruct (Py.truthy p).
Qed.

Lemma keeps_parse_groups pkg (gs : list (string * group)) :
  ∀ acc, keeps_prefix (parse_groups repr readmodule_ex pkg gs acc).
Proof.
  induction gs as [|[k g] gs IH]; intros acc; cbn [parse_groups].
  - apply keeps_ret.
  - destruct (disabled g); [apply IH|].
    apply keeps_bind; [apply keeps_parse_group|]. intros names. apply IH.
Qed.

Lemma keeps_parse_suite (s : suite) : keeps_prefix (parse_suite repr readmodule_ex s).
Proof.
  unfold parse_suite. apply keeps_bind; [apply keeps_parse_groups|].
  intros names. apply keeps_ret.
Qed.

(** Every entry of the dictionary [_parse_tests_from_dict] returns is what
    the loop body makes of the configured suite of that name, run on a
    loader with the same method prefix. *)
Lemma parse_suites_entries (conf : dict_conf) (suite_names : list string) :
  ∀ res0 (self self' : DefaultTestLoader) res,
    parse_suites repr readmodule_ex conf suite_names res0 self = (inr res, self') →
    ∀ name r, res !! name = Some r →
      res0 !! name = Some r ∨
      ∃ s (self1 self1' : DefaultTestLoader),
        name ∈ suite_names ∧ suites conf !! name = Some s ∧
        method_prefix self1 = method_prefix self ∧
        parse_suite repr readmodule_ex s self1 = (inr r, self1').
Proof.
  induction suite_names as [|n suite_names IH]; intros res0 self self' res Hrun name r Hr.
  - injection Hrun as <- _. by left.
  - cbn [parse_suites] in Hrun. rewrite lift_bind_run in Hrun. unfold getitem in Hrun.
    destruct (suites conf !! n) as [s|] eqn:Hs; [|done].
    unfold mbind at 1, M_bind, bind in Hrun.
    pose proof (keeps_parse_suite s self) as Hk.
    destruct (parse_suite repr readmodule_ex s self) as [[e|r'] self1] eqn:Hp; [done|].
    simpl in Hk.
    destruct (IH _ _ _ _ Hrun name r Hr) as [H0|(s' & self2 & self2' & Hin & Hs' & Hpre & Hps)].
    + destruct (decide (n = name)) as [->|Hne].
      * rewrite lookup_insert_eq in H0. injection H0 as ->. right.
        exists s, self, self1. split_and!; [left|done..].
      * rewrite lookup_insert_ne in H0 by done. by left.
    + right. exists s', self2, self2'. split_and!; [by right|done|congruence|done].
Qed.

Lemma parse_tests_from_dict_entries (conf : dict_conf) (self self' : DefaultTestLoader)
    res name r :
  _parse_tests_from_dict repr readmodule_ex conf self = (inr res, self') →
  res !! name = Some r →
  ∃ s (self1 self1' : DefaultTestLoader),
    name ∈ test_suites conf ∧ suites conf !! name = Some s ∧
    method_prefix self1 = method_prefix self ∧
    parse_suite repr readmodule_ex s self1 = (inr r, self1').
Proof.
  intros Hrun Hr.
  destruct (parse_suites_entries conf _ _ _ _ _ Hrun name r Hr) as [H0|H]; [|done].
  by rewrite lookup_empty in H0.
Qed.

End SuiteFacts.

Lemma list_to_set_bind {X} (f : X → list string) (l : list X) :
  list_to_set (l ≫= f) =@{gset string} ⋃ ((λ x, list_to_set (f x)) <$> l).
Proof.
  induction l as [|x l IH]; [done|].
  rewrite bind_cons, list_to_set_app_L, IH. done.
Qed.

Section SuiteClaims.

Variable repr : string → string.
Variable readmodule_ex : string → result (gmap string pyclbr_obj).


(** C8, as the code has it: the [package] field of a suite whose
    configuration has no package is the string ["None"].  It differs from
    the field of a suite with a package exactly when that package is
    neither empty nor itself named ["None"]. *)
Theorem package_field_without_package
    (s1 s2 : suite) (self1 self1' self2 self2' : DefaultTestLoader)
    (r1 r2 : parsed_suite) (p : string) :
  package s1 = None → package s2 = Some p →
  parse_suite repr readmodule_ex s1 self1 = (inr r1, self1') →
  parse_suite repr readmodule_ex s2 self2 = (inr r2, self2') →
  res_package r1 = "None" ∧
  (res_package r2 = res_package r1 ↔ p = "None" ∨ p = "").
Proof.
  intros H1 H2 Hr1 Hr2.
  apply parse_suite_package in Hr1, Hr2. rewrite H1 in Hr1. rewrite H2 in Hr2.
  rewrite Hr1, Hr2. split; [done|].
  destruct p as [|a p]; simpl; [naive_solver|]. naive_solver.
Qed.

End SuiteClaims.

(** ** C5: what a full name loads *)

Section CaseLoaderClaims.

Variable pyobj : Type.
Variable py_import : string → result pyobj.
Variable py_getattr : pyobj → string → result pyobj.
Variable is_FunctionType : pyobj → bool.
Variable is_case_class : pyobj → bool.
Variable new_case : pyobj → string → result pyobj.

Abbreviation make_case := (_make_case_from_full_name pyobj py_import py_getattr
                         is_FunctionType is_case_class new_case).
Abbreviation load_names := (load_tests_from_full_names pyobj py_import py_getattr
                          is_FunctionType is_case_class new_case).
Abbreviation make_all := (make_cases pyobj py_import py_getattr
                        is_FunctionType is_case_class new_case).

Lemma make_cases_app (names1 names2 : list string) :
  make_all (names1 ++ names2)%list =
    cases1 ← make_all names1; cases2 ← make_all names2; inr (cases1 ++ cases2)%list.
Proof.
  induction names1 as [|n names1 IH]; simpl.
  - by destruct (make_all names2).
  - destruct (make_case n) as [e|c]; simpl; [done|]. rewrite IH.
    destruct (make_all names1) as [e|cs1]; simpl; [done|].
    by destruct (make_all names2).
Qed.

(** A name that yields no case leaves no trace in the loaded suite. *)
Lemma load_drops_absent (name : string) (names1 names2 : list string) :
  make_case name = inr None →
  load_names (names1 ++ name :: names2)%list = load_names (names1 ++ names2)%list.
Proof.
  intros Hn. unfold load_tests_from_full_names. rewrite !make_cases_app.
  destruct (make_all names1) as [e|cs1]; simpl; [done|]. rewrite Hn. simpl.
  destruct (make_all names2) as [e|cs2]; simpl; [done|].
  by rewrite !omap_app.
Qed.

Lemma make_case_run (name : string) (parent obj : option pyobj) :
  resolve pyobj py_import py_getattr name = inr (parent, obj) →
  make_case name =
    if negb (from_option is_FunctionType false obj) then inl TypeError
    else
      match parent with
      | Some cls =>
          if is_case_class cls then
            match new_case cls (default "" (last (Py.split dot name))) with
            | inl e => inl e
            | inr test_obj =>
                match py_getattr test_obj (default "" (last (Py.split dot name))) with
                | inl e => inl e
                | inr attr =>
                    if negb (is_FunctionType attr) then inr (Some test_obj) else inr None
                end
            end
          else inr None
      | None => inr None
      end.
Proof.
  intros Hres. unfold _make_case_from_full_name. rewrite Hres. cbn [mbind result_bind].
  destruct (negb _); [done|]. destruct parent as [cls|]; [|done].
  destruct (is_case_class cls); [|done].
  destruct (new_case cls _) as [e|test_obj]; [done|]. cbn [mbind result_bind].
  by destruct (py_getattr test_obj _).
Qed.

(** C5: let a full name resolve to an object [obj] with owner [parent].
    If [obj] is not a function, [_make_case_from_full_name] raises
    [TypeError].  If it is one and [parent] is not a test-case class, or
    [parent] is one but the attribute of the new case under the last
    segment of the name is still a plain function (a static method), the
    result is [None], and [load_tests_from_full_names] loads the same suite
    with or without that name.  Otherwise the result is the case
    [parent(name)] made for that method. *)
Theorem make_case_outcomes (name : string) (parent obj : option pyobj) :
  resolve pyobj py_import py_getattr name = inr (parent, obj) →
  (from_option is_FunctionType false obj = false → make_case name = inl TypeError) ∧
  (from_option is_FunctionType false obj = true →
   from_option is_case_class false parent = false →
   make_case name = inr None ∧
   ∀ names1 names2,
     load_names (names1 ++ name :: names2)%list = load_names (names1 ++ names2)%list) ∧
  (∀ cls test_obj attr,
     from_option is_FunctionType false obj = true →
     parent = Some cls → is_case_class cls = true →
     new_case cls (default "" (last (Py.split dot name))) = inr test_obj →
     py_getattr test_obj (default "" (last (Py.split dot name))) = inr attr →
     if is_FunctionType attr
     then make_case name = inr None ∧
          ∀ names1 names2,
            load_names (names1 ++ name :: names2)%list = load_names (names1 ++ names2)%list
     else make_case name = inr (Some test_obj) ∧ load_names [name] = inr [test_obj]).
Proof.
  intros Hres. pose proof (make_case_run name parent obj Hres) as Hrun.
  split_and!.
  - intros Hf. by rewrite Hrun, Hf.
  - intros Hf Hp.
    assert (make_case name = inr None) as Hn.
    { rewrite Hrun, Hf. cbn [negb]. destruct parent as [cls|]; [|done].
      simpl in Hp. by rewrite Hp. }
    split; [done|]. intros. by apply load_drops_absent.
  - intros cls test_obj attr Hf -> Hc Hnew Hattr.
    rewrite Hf, Hc, Hnew, Hattr in Hrun. cbn [negb] in Hrun.
    destruct (is_FunctionType attr); cbn [negb] in Hrun.
    + split; [done|]. intros. by apply load_drops_absent.
    + split; [done|]. unfold load_tests_from_full_names. cbn [make_cases].
      by rewrite Hrun.
Qed.

End CaseLoaderClaims.

(** * The claims on the fixtures *)

Lemma fx_tree_no_empty_branch : no_empty_branch fx_tree.
Proof.
  unfold fx_tree, fx_classes. split.
  - intros m cs [_ <-]%lookup_singleton_Some. apply insert_non_empty.
  - intros m c ms. unfold get_cls.
    destruct ({[ "m" := {[ "C" := fx_methods ]} ]} !! m) as [cs|] eqn:Hm; [|done].
    apply lookup_singleton_Some in Hm as [_ <-]. simpl.
    intros [_ <-]%lookup_singleton_Some. unfold fx_methods. set_solver.
Qed.


(** C2 on [fx_tree]: the method [test_c] is missing from class [C]. *)
Lemma delete_names_missing_level_fixture :
  _del_mth_in_name_tree quote_repr "m" "C" "test_c" fx_built =
    (inl (ValueError "Cannot exclude 'm.C.test_c': 'test_c' not found in 'C'."), fx_built).
Proof.
  pose proof (delete_names_missing_level quote_repr fx_built fx_tree "m" "C" "test_c" eq_refl)
    as H.
  unfold fx_tree in H at 1. rewrite lookup_singleton_eq in H.
  unfold fx_classes in H at 1. rewrite lookup_singleton_eq in H.
  destruct H as [_ H]. rewrite decide_False in H; [exact H|].
  unfold fx_methods. vm_compute. intros H'. inversion H'.
Defined.

(** C9 on [fx_tree]: excluding a class of the unknown module [x]. *)
Lemma delete_failure_is_atomic_fixture :
  snd (_del_cls_in_name_tree quote_repr "x" "C" fx_built) = fx_built.
Proof.
  apply (proj1 (delete_failure_is_atomic quote_repr fx_built "x" "C" "t"
                  (ValueError "Cannot exclude 'x.C': 'x' not found in modules list."))).
  vm_compute. reflexivity.
Defined.

(** C3 on [fx_tree]: deleting [m.C.test_a] keeps the tree without an empty
    branch. *)
Lemma name_tree_has_no_empty_branch_fixture :
  ∃ tree' : name_tree,
    _name_tree (set_name_tree (tree_without_mth fx_tree "m" "C" "test_a") fx_built)
      = Some tree' ∧
    no_empty_branch tree'.
Proof.
  apply (proj2 (proj2 (name_tree_has_no_empty_branch quote_repr fx_readmodule_ex))
           fx_built _ fx_tree "m" "C" "test_a").
  - reflexivity.
  - apply fx_tree_no_empty_branch.
  - vm_compute. reflexivity.
Defined.

(** C5 on the small interpreter: [m.C.test_a] loads the case made for
    [test_a]. *)
Lemma make_case_outcomes_fixture :
  _make_case_from_full_name fx_obj fx_import fx_getattr fx_is_FunctionType
    fx_is_case_class fx_new_case "m.C.test_a" = inr (Some (CaseOf "test_a")) ∧
  load_tests_from_full_names fx_obj fx_import fx_getattr fx_is_FunctionType
    fx_is_case_class fx_new_case ["m.C.test_a"] = inr [CaseOf "test_a"].
Proof.
  apply (proj2 (proj2 (make_case_outcomes fx_obj fx_import fx_getattr fx_is_FunctionType
                         fx_is_case_class fx_new_case "m.C.test_a"
                         (Some ClsC) (Some FnTestA) eq_refl))
           ClsC (CaseOf "test_a") (BoundMethod "test_a"));
    reflexivity.
Defined.

(** C6 on package [pkg] and target [mod.Cls.test_x], with no module
    that can be inspected. *)
Lemma method_granularity_takes_names_fixture :
  ∃ names,
    parse_group quote_repr fx_no_module (Some "pkg")
      (fx_method_group ["mod.Cls.test_x"]) fx_loader = (inr names, fx_loader) ∧
    ∀ y, y ∈ names ↔ ∃ x, x ∈ ["mod.Cls.test_x"] ∧ y = "pkg" ++ "." ++ x.
Proof.
  apply (proj1 (method_granularity_takes_names quote_repr fx_no_module (Some "pkg")
                  (fx_method_group ["mod.Cls.test_x"]) ["mod.Cls.test_x"] fx_loader
                  eq_refl eq_refl)).
  repeat constructor.
Defined.


(** C8, the claim as written fails: a suite without a package and a suite
    whose package is named [None] get the same [package] field. *)
Lemma package_None_is_ambiguous :
  package fx_suite_no_package = None ∧
  package fx_suite_named_None = Some "None" ∧
  ∃ r1 r2 : parsed_suite,
    fst (parse_suite quote_repr fx_no_module fx_suite_no_package fx_loader) = inr r1 ∧
    fst (parse_suite quote_repr fx_no_module fx_suite_named_None fx_loader) = inr r2 ∧
    res_package r1 = "None" ∧ res_package r2 = "None".
Proof.
  split; [reflexivity|]. split; [reflexivity|].
  eexists _, _. split_and!; [vm_compute; reflexivity..|reflexivity|reflexivity].
Qed.

(** C8 on a suite without a package and a suite of package [pkg]. *)
Lemma package_field_without_package_fixture :
  res_package fx_parsed_no_package = "None" ∧
  (res_package fx_parsed_pkg = res_package fx_parsed_no_package ↔
   "pkg" = "None" ∨ "pkg" = "").
Proof.
  apply (package_field_without_package quote_repr fx_no_module
           fx_suite_no_package fx_suite_pkg fx_loader fx_loader fx_loader fx_loader
           fx_parsed_no_package fx_parsed_pkg "pkg");
    [reflexivity|reflexivity|vm_compute; reflexivity|vm_compute; reflexivity].
Defined.


Example except_class_twice_succeeds :
  _del_except_classes_in_name_tree quote_repr ["m.C"; "m.C"] fx_built =
    (inr tt, set_name_tree ∅ fx_built).
Proof. vm_compute. reflexivity. Qed.

Example except_method_twice_succeeds :
  _del_except_methods_in_name_tree quote_repr ["m.C.test_a"; "m.C.test_a"] fx_built =
    (inr tt, set_name_tree {[ "m" := {[ "C" := {[ "test_b" ]} ]} ]} fx_built).
Proof. vm_compute. reflexivity. Qed.

(** The end-to-end scenario of the specification: module [m], class [C]
    with [test_a], [test_b] and [helper], and [m.C.test_b] excluded. *)
Example module_group_with_excluded_method :
  fst (parse_group quote_repr fx_readmodule_ex None
         {| disable := None; granularity := "module"; modules := Some ["m"];
            classes := None; methods_ := None; except_classes := None;
            except_methods := Some ["m.C.test_b"] |} fx_loader)
  = inr ["m.C.test_a"].
Proof. vm_compute. reflexivity. Qed.

(** * Further properties of the loader *)

(** ** The name parser and the method list of a class *)

Section ParserAndIntrospection.

Variable repr : string → string.

(** X1: joining dot-free segments with dots and parsing the result gives the
    segments back: two for a class name, three for a method name. *)
Theorem name_parts_of_joined (m c t : string) :
  Py.free_of dot m → Py.free_of dot c → Py.free_of dot t →
  _get_cls_name_parts repr (Py.join "." [m; c]) = inr (m, c) ∧
  _get_mth_name_parts repr (Py.join "." [m; c; t]) = inr (m, c, t).
Proof.
  intros Hm Hc Ht. split.
  - by apply get_cls_name_parts_join.
  - by apply get_mth_name_parts_join.
Qed.

#[local] Instance by_lineno_trans cls : Transitive (by_lineno cls).
Proof. intros x y z. unfold by_lineno. lia. Qed.

#[local] Instance by_lineno_total cls : Total (by_lineno cls).
Proof. intros x y. unfold by_lineno. lia. Qed.

Lemma StronglySorted_filter {X} (R : relation X) (P : X → Prop) `{∀ x, Decision (P x)}
    (l : list X) :
  StronglySorted R l → StronglySorted R (filter P l).
Proof.
  induction 1 as [|x l Hl IH Hx]; [constructor|].
  rewrite filter_cons. destruct (decide (P x)); [|done].
  constructor; [done|]. apply Forall_forall. intros y Hy%list_elem_of_filter.
  eapply Forall_forall in Hx; [done|]. by destruct Hy.
Qed.

(** X2: [_get_method_names_by_class] lists, in the order of their line
    numbers and without repetition, exactly the methods of the class whose
    name starts with the method prefix. *)
Theorem method_names_by_class_sorted (self : DefaultTestLoader) (cls : pyclbr_Class) :
  StronglySorted (by_lineno cls) (_get_method_names_by_class self cls) ∧
  NoDup (_get_method_names_by_class self cls) ∧
  ∀ t, t ∈ _get_method_names_by_class self cls ↔
       is_Some (methods cls !! t) ∧ Py.startswith t (method_prefix self) = true.
Proof.
  split_and!.
  - unfold _get_method_names_by_class. apply StronglySorted_filter.
    apply StronglySorted_merge_sort; apply _.
  - unfold _get_method_names_by_class. apply NoDup_filter.
    rewrite merge_sort_Permutation. apply NoDup_fst_map_to_list.
  - apply mth_names_elem.
Qed.

End ParserAndIntrospection.

(** ** More on building the name tree *)

Section BuildOutcome.

Variable readmodule_ex : string → result (gmap string pyclbr_obj).

Lemma build_loop_outcome pkg f (self : DefaultTestLoader) (l : list string) :
  ∀ tree : name_tree,
    match fst (for_ l (build_module readmodule_ex pkg f) (set_name_tree tree self)) with
    | inr _ => ∀ m, m ∈ l → ∃ content, _inspect_module readmodule_ex pkg m = inr content
    | inl e => ∃ m, m ∈ l ∧ _inspect_module readmodule_ex pkg m = inl e
    end.
Proof.
  induction l as [|a l IH]; intros tree.
  - simpl. intros m Hm. by apply elem_of_nil in Hm.
  - cbn [for_]. unfold mbind, M_bind, bind. rewrite build_module_run.
    destruct (_inspect_module readmodule_ex pkg a) as [e|content] eqn:Ha.
    + simpl. exists a. split; [left|done].
    + specialize (IH (foldl (build_class self f a) tree
                            (map_to_list (_get_classes_of_module content)))).
      destruct (for_ l _ _) as [[e|[]] self']; simpl in *.
      * destruct IH as (m & Hm & He). exists m. split; [by right|done].
      * intros m [->|Hm]%elem_of_cons; [eauto|by apply IH].
Qed.

(** X3: [_build_name_tree] starts from an empty tree whatever tree the loader
    held; it returns exactly when every module of the set can be inspected,
    and when it raises, the exception is the one [pyclbr] raised for one of
    the modules. *)
Theorem build_name_tree_outcome pkg f (self : DefaultTestLoader) (mod_names : gset string) :
  (∀ tree0 : name_tree,
     _build_name_tree readmodule_ex pkg mod_names f (set_name_tree tree0 self) =
     _build_name_tree readmodule_ex pkg mod_names f self) ∧
  ((∃ tree : name_tree,
      _build_name_tree readmodule_ex pkg mod_names f self = (inr tt, set_name_tree tree self)) ↔
   ∀ m, m ∈ mod_names → ∃ content, _inspect_module readmodule_ex pkg m = inr content) ∧
  (∀ e self', _build_name_tree readmodule_ex pkg mod_names f self = (inl e, self') →
              ∃ m, m ∈ mod_names ∧ _inspect_module readmodule_ex pkg m = inl e).
Proof.
  split_and!.
  - intros tree0. by apply build_name_tree_indep.
  - split.
    + intros [tree Hrun] m Hm.
      pose proof (build_loop_outcome pkg f self (elements mod_names) ∅) as Ho.
      unfold _build_name_tree in Hrun. rewrite Hrun in Ho. simpl in Ho.
      apply Ho. by apply elem_of_elements.
    + intros Hok. destruct (build_name_tree_run readmodule_ex pkg f self mod_names Hok)
        as (tree & Hrun & _). eauto.
  - intros e self' Hrun.
    pose proof (build_loop_outcome pkg f self (elements mod_names) ∅) as Ho.
    unfold _build_name_tree in Hrun. rewrite Hrun in Ho. simpl in Ho.
    destruct Ho as (m & Hm & He). exists m. by rewrite <- elem_of_elements.
Qed.

Lemma filtered_out_false (f : gset string) (x : string) :
  filtered_out (Some f) x = false ↔ f = ∅ ∨ x ∈ f.
Proof.
  unfold filtered_out. rewrite andb_false_iff, !bool_decide_eq_false.
  split.
  - intros [H|H]; [left|right].
    + destruct (decide (f = ∅)); [done|by destruct H].
    + destruct (decide (x ∈ f)); [done|by destruct H].
  - intros [->|H]; [left|right]; auto.
Qed.

(** X4: with a class filter, the tree holds the declared methods of the
    classes whose [module.class] name is in the filter; an empty filter
    filters nothing. *)
Theorem build_with_class_filter pkg (f : gset string) (self : DefaultTestLoader)
    (mod_names : gset string) :
  (∀ m, m ∈ mod_names → ∃ content, _inspect_module readmodule_ex pkg m = inr content) →
  ∃ tree : name_tree,
    _build_name_tree readmodule_ex pkg mod_names (Some f) self
      = (inr tt, set_name_tree tree self) ∧
    ∀ m c t, has_mth tree m c t ↔
             m ∈ mod_names ∧ declared readmodule_ex self pkg m c t ∧
             (f = ∅ ∨ Py.join "." [m; c] ∈ f).
Proof.
  intros Hok.
  destruct (build_name_tree_run readmodule_ex pkg (Some f) self mod_names Hok)
    as (tree & Hrun & Hhas & _).
  exists tree. split; [done|]. intros m c t. rewrite Hhas, filtered_out_false. tauto.
Qed.

End BuildOutcome.

(** ** More on deleting from the name tree *)

Section DeleteOutcome.

Variable repr : string → string.

(** Before any tree is built, [self._name_tree] is [None]: both deletions
    and the flattening raise [TypeError] and leave the loader as it is. *)
Theorem no_tree_raises_TypeError (self : DefaultTestLoader) (pkg : option string)
    (m c t : string) :
  _name_tree self = None →
  _del_cls_in_name_tree repr m c self = (inl TypeError, self) ∧
  _del_mth_in_name_tree repr m c t self = (inl TypeError, self) ∧
  _get_full_method_names_from_tree pkg self = (inl TypeError, self).
Proof.
  intros Hn.
  unfold _del_cls_in_name_tree, _del_mth_in_name_tree, _get_full_method_names_from_tree,
    mbind, M_bind, bind, get_tree.
  by rewrite Hn.
Qed.

(** X5: A deletion that returned cannot be repeated: the same call on the
    loader it left raises [ValueError] and changes nothing. *)
Theorem delete_twice_fails (self self' : DefaultTestLoader) (m c t : string) :
  (_del_cls_in_name_tree repr m c self = (inr tt, self') →
   ∃ msg, _del_cls_in_name_tree repr m c self' = (inl (ValueError msg), self')) ∧
  (_del_mth_in_name_tree repr m c t self = (inr tt, self') →
   ∃ msg, _del_mth_in_name_tree repr m c t self' = (inl (ValueError msg), self')).
Proof.
  destruct (_name_tree self) as [tree|] eqn:Ht.
  2:{ destruct (no_tree_raises_TypeError self None m c t Ht) as (-> & -> & _).
      split; intros [=]. }
  split.
  - rewrite (del_cls_run repr _ _ m c Ht).
    destruct (tree !! m) as [cs|] eqn:Hm; [|done].
    destruct (cs !! c) as [ms|] eqn:Hc; [|done].
    intros [= <-].
    rewrite (del_cls_run repr (set_name_tree (tree_without_cls tree m c) self)
               (tree_without_cls tree m c) m c eq_refl).
    pose proof (tree_without_cls_get_cls tree m c cs m c Hm) as Hg.
    rewrite decide_True in Hg by done. unfold get_cls in Hg.
    destruct (tree_without_cls tree m c !! m) as [cs'|]; [|eauto].
    simpl in Hg. rewrite Hg. eauto.
  - rewrite (del_mth_run repr _ _ m c t Ht).
    destruct (tree !! m) as [cs|] eqn:Hm; [|done].
    destruct (cs !! c) as [ms|] eqn:Hc; [|done].
    destruct (bool_decide (t ∈ ms)); [|done].
    intros [= <-].
    rewrite (del_mth_run repr (set_name_tree (tree_without_mth tree m c t) self)
               (tree_without_mth tree m c t) m c t eq_refl).
    pose proof (tree_without_mth_get_cls tree m c t cs ms m c Hm Hc) as Hg.
    rewrite decide_True in Hg by done. unfold get_cls in Hg.
    destruct (tree_without_mth tree m c t !! m) as [cs'|]; [|eauto].
    simpl in Hg. rewrite Hg.
    destruct (decide (ms ∖ {[t]} = ∅)); [eauto|].
    rewrite bool_decide_eq_false_2 by set_solver. eauto.
Qed.

(** X6: deleting the only method of a class is deleting the class. *)
Theorem delete_last_method_is_delete_class (self : DefaultTestLoader) (tree : name_tree)
    (m c t : string) :
  _name_tree self = Some tree → get_cls tree m c = Some {[t]} →
  _del_mth_in_name_tree repr m c t self = _del_cls_in_name_tree repr m c self.
Proof.
  intros Ht Hg. rewrite (del_cls_run repr _ _ m c Ht), (del_mth_run repr _ _ m c t Ht).
  unfold get_cls in Hg. destruct (tree !! m) as [cs|] eqn:Hm; [|done]. simpl in Hg.
  rewrite Hg. rewrite bool_decide_eq_true_2 by set_solver. do 2 f_equal.
  apply map_eq. intros k.
  rewrite (tree_without_mth_lookup _ _ _ _ _ _ k Hm Hg), (tree_without_cls_lookup _ _ _ _ k Hm).
  destruct (decide (k = m)); [|done]. cbv zeta.
  by rewrite (decide_True (P := ({[t]} ∖ {[t]} =@{gset string} ∅))) by set_solver.
Qed.

End DeleteOutcome.

(** ** More on flattening *)

Lemma leaves_Permutation_filter (tree tree' : name_tree)
    (P : string * string * string → Prop) `{∀ x, Decision (P x)} :
  (∀ m c t, has_mth tree' m c t ↔ has_mth tree m c t ∧ P (m, c, t)) →
  leaves tree' ≡ₚ filter P (leaves tree).
Proof.
  intros Hhas. apply NoDup_Permutation.
  - apply NoDup_leaves.
  - apply NoDup_filter, NoDup_leaves.
  - intros [[m c] t]. rewrite list_elem_of_filter, !elem_of_leaves, Hhas. tauto.
Qed.

Lemma tree_without_cls_has_mth (tree : name_tree) m c cs m' c' t' :
  tree !! m = Some cs →
  has_mth (tree_without_cls tree m c) m' c' t' ↔
  has_mth tree m' c' t' ∧ ¬ (m' = m ∧ c' = c).
Proof.
  intros Hm. unfold has_mth. rewrite (tree_without_cls_get_cls _ _ _ _ _ _ Hm).
  destruct (decide (m' = m ∧ c' = c)); [|tauto].
  split; [by intros (? & ? & ?)|tauto].
Qed.

Section FlattenAfterDelete.

Variable repr : string → string.

(** X7: after a deletion that returned, flattening appends one name for each
    leaf the tree had before, except the leaves of the deleted class, or the
    leaf of the deleted method. *)
Theorem flatten_after_delete (self self' : DefaultTestLoader) (tree : name_tree)
    (pkg : option string) (m c t : string) :
  _name_tree self = Some tree →
  (_del_cls_in_name_tree repr m c self = (inr tt, self') →
   ∃ names, _get_full_method_names_from_tree pkg self' = (inr names, self') ∧
            names ≡ₚ leaf_name pkg <$>
                     filter (λ leaf, ¬ (leaf.1.1 = m ∧ leaf.1.2 = c)) (leaves tree)) ∧
  (_del_mth_in_name_tree repr m c t self = (inr tt, self') →
   ∃ names, _get_full_method_names_from_tree pkg self' = (inr names, self') ∧
            names ≡ₚ leaf_name pkg <$> filter (λ leaf, leaf ≠ (m, c, t)) (leaves tree)).
Proof.
  intros Ht. split.
  - rewrite (del_cls_run repr _ _ m c Ht).
    destruct (tree !! m) as [cs|] eqn:Hm; [|done].
    destruct (cs !! c) as [ms|] eqn:Hc; [|done].
    intros [= <-].
    destruct (flatten_run pkg (set_name_tree (tree_without_cls tree m c) self) _ eq_refl)
      as (names & Hrun & Hperm).
    exists names. split; [done|]. rewrite Hperm. apply fmap_Permutation.
    apply leaves_Permutation_filter. intros m' c' t'. simpl.
    apply (tree_without_cls_has_mth _ _ _ _ _ _ _ Hm).
  - rewrite (del_mth_run repr _ _ m c t Ht).
    destruct (tree !! m) as [cs|] eqn:Hm; [|done].
    destruct (cs !! c) as [ms|] eqn:Hc; [|done].
    destruct (bool_decide (t ∈ ms)); [|done].
    intros [= <-].
    destruct (flatten_run pkg (set_name_tree (tree_without_mth tree m c t) self) _ eq_refl)
      as (names & Hrun & Hperm).
    exists names. split; [done|]. rewrite Hperm. apply fmap_Permutation.
    apply leaves_Permutation_filter. intros m' c' t'.
    rewrite (tree_without_mth_has_mth _ _ _ _ _ _ _ _ _ Hm Hc).
    split; intros [? Hne]; (split; [done|]); naive_solver.
Qed.

End FlattenAfterDelete.

Lemma count_dot_joined (a b : string) :
  Py.count dot (a ++ "." ++ b) = S (Py.count dot a + Py.count dot b).
Proof.
  change (a ++ "." ++ b) with (a ++ String dot b). rewrite count_app.
  change (Py.count dot (String dot b)) with (1 + Py.count dot b). lia.
Qed.

(** A name ends in exactly one dot-free last segment. *)
Lemma joined_last_inj (a a' t t' : string) :
  Py.free_of dot t → Py.free_of dot t' →
  a ++ "." ++ t = a' ++ "." ++ t' → a = a' ∧ t = t'.
Proof.
  unfold Py.free_of. intros Ht Ht'. revert a'.
  induction a as [|x a IH]; intros [|y a'] Heq.
  - split; [done|]. by injection Heq.
  - exfalso. change (String dot t = String y (a' ++ "." ++ t')) in Heq.
    injection Heq as <- Heq. rewrite Heq, count_dot_joined in Ht. lia.
  - exfalso. change (String x (a ++ "." ++ t) = String dot t') in Heq.
    injection Heq as -> Heq. rewrite <- Heq, count_dot_joined in Ht'. lia.
  - change (String x (a ++ "." ++ t) = String y (a' ++ "." ++ t')) in Heq.
    injection Heq as -> Heq. destruct (IH _ Heq) as [-> ->]. done.
Qed.

Lemma full_name_inj (pkg : option string) (m c t m' c' t' : string) :
  Py.free_of dot c → Py.free_of dot t → Py.free_of dot c' → Py.free_of dot t' →
  full_name pkg (m, c, t) = full_name pkg (m', c', t') →
  (m, c, t) = (m', c', t').
Proof.
  intros Hc Ht Hc' Ht' Heq.
  assert (m ++ "." ++ c ++ "." ++ t = m' ++ "." ++ c' ++ "." ++ t') as Hj.
  { unfold full_name in Heq. cbn [Py.join] in Heq.
    destruct pkg as [p|]; [destruct (Py.truthy p)|]; try done.
    by apply (inj (String.app p)), (inj (String.app ".")) in Heq. }
  assert (∀ x y z, x ++ "." ++ y ++ "." ++ z = (x ++ "." ++ y) ++ "." ++ z) as Hassoc.
  { intros x y z. by rewrite !string_app_assoc. }
  rewrite !Hassoc in Hj.
  apply joined_last_inj in Hj as [Hj ->]; [|done..].
  by apply joined_last_inj in Hj as [-> ->].
Qed.

(** X8: when class and method names hold no dot (and a package or non-empty
    module names start each name), the flattened list has no repetition: the
    set made of it has one name per leaf. *)
Theorem flatten_names_distinct (self : DefaultTestLoader) (tree : name_tree)
    (pkg : option string) :
  _name_tree self = Some tree →
  (Py.truthy_opt pkg = true ∨ tree !! "" = None) →
  (∀ m c t, has_mth tree m c t → Py.free_of dot c ∧ Py.free_of dot t) →
  ∃ names,
    _get_full_method_names_from_tree pkg self = (inr names, self) ∧
    NoDup names ∧ length names = length (leaves tree) ∧
    names ≡ₚ full_name pkg <$> leaves tree.
Proof.
  intros Ht Hne Hfree.
  destruct (flatten_run pkg self tree Ht) as (names & Hrun & Hperm).
  assert (leaf_name pkg <$> leaves tree = full_name pkg <$> leaves tree) as Hn.
  { apply fmap_ext_elem_of. intros [[m c] t] Hin%elem_of_leaves.
    apply dotted_full_name. destruct Hne as [?|Hne]; [by left|right].
    intros ->. destruct Hin as (ms & Hg & _). unfold get_cls in Hg. by rewrite Hne in Hg. }
  rewrite Hn in Hperm. exists names. split_and!; [done| | |done].
  - rewrite Hperm. apply NoDup_fmap_2_strong; [|apply NoDup_leaves].
    intros [[m c] t] [[m' c'] t'] H1%elem_of_leaves H2%elem_of_leaves Heq.
    destruct (Hfree _ _ _ H1), (Hfree _ _ _ H2). by apply (full_name_inj pkg).
  - by rewrite Hperm, length_fmap.
Qed.

(** ** Exclusion lists are strict *)

Lemma joined2_inj (m c m0 c0 : string) :
  Py.free_of dot m0 → Py.free_of dot c0 →
  m ++ "." ++ c = m0 ++ "." ++ c0 → m = m0 ∧ c = c0.
Proof.
  intros Hm0 Hc0 Heq. apply joined_last_inj; [|done..].
  pose proof (f_equal (Py.count dot) Heq) as Hn. rewrite !count_dot_joined in Hn.
  unfold Py.free_of in *. lia.
Qed.

Lemma joined3_inj (m c t m0 c0 t0 : string) :
  Py.free_of dot m0 → Py.free_of dot c0 → Py.free_of dot t0 →
  m ++ "." ++ c ++ "." ++ t = m0 ++ "." ++ c0 ++ "." ++ t0 →
  m = m0 ∧ c = c0 ∧ t = t0.
Proof.
  intros Hm0 Hc0 Ht0 Heq.
  pose proof (f_equal (Py.count dot) Heq) as Hn. rewrite !count_dot_joined in Hn.
  unfold Py.free_of in *.
  assert (m ++ "." ++ c ++ "." ++ t = (m ++ "." ++ c) ++ "." ++ t) as E1
    by (by rewrite !string_app_assoc).
  assert (m0 ++ "." ++ c0 ++ "." ++ t0 = (m0 ++ "." ++ c0) ++ "." ++ t0) as E2
    by (by rewrite !string_app_assoc).
  rewrite E1, E2 in Heq.
  apply joined_last_inj in Heq as [Heq ->]; [|unfold Py.free_of; lia..].
  apply joined_last_inj in Heq as [-> ->]; [done|unfold Py.free_of; lia..].
Qed.

Section ExceptOutcome.

Variable repr : string → string.

Lemma except_classes_loop_ok (self : DefaultTestLoader) (order : list string) :
  NoDup order →
  ∀ tree : name_tree,
    Forall (names_class tree) order →
    ∃ tree' : name_tree,
      for_ order (λ x, '(m, c) ← lift (_get_cls_name_parts repr x);
                       _del_cls_in_name_tree repr m c) (set_name_tree tree self)
        = (inr tt, set_name_tree tree' self) ∧
      ∀ m c, get_cls tree' m c =
             if decide (m ++ "." ++ c ∈ order) then None else get_cls tree m c.
Proof.
  induction 1 as [|x rest Hx Hnd IH]; intros tree Hall.
  - exists tree. split; [done|]. intros m c. rewrite decide_False; [done|].
    by intros ?%elem_of_nil.
  - apply Forall_cons_1 in Hall as [(m0 & c0 & -> & Hm0 & Hc0 & Hsome) Hall].
    assert (∃ cs ms, tree !! m0 = Some cs ∧ cs !! c0 = Some ms) as (cs & ms & Hm & Hc).
    { destruct Hsome as [ms Hg]. unfold get_cls in Hg.
      destruct (tree !! m0) as [cs|]; [|done]. eauto. }
    destruct (IH (tree_without_cls tree m0 c0)) as (tree' & Hrun & Hget).
    { apply Forall_forall. intros y Hy.
      destruct (proj1 (Forall_forall _ _) Hall y Hy) as (m1 & c1 & -> & Hm1 & Hc1 & Hs1).
      exists m1, c1. split_and!; [done..|].
      rewrite (tree_without_cls_get_cls _ _ _ _ _ _ Hm).
      rewrite decide_False; [done|]. intros [-> ->]. done. }
    exists tree'. split.
    + cbn [for_]. erewrite bind_inr; [exact Hrun|].
      rewrite lift_bind_run, (get_cls_name_parts_join repr m0 c0 Hm0 Hc0).
      rewrite (del_cls_run repr (set_name_tree tree self) tree m0 c0 eq_refl), Hm, Hc.
      done.
    + intros m c. rewrite Hget, (tree_without_cls_get_cls _ _ _ _ _ _ Hm).
      destruct (decide (m ++ "." ++ c ∈ rest)) as [Hin|Hin].
      * rewrite decide_True; [done|by right].
      * destruct (decide (m = m0 ∧ c = c0)) as [[-> ->]|Hne].
        -- rewrite decide_True; [done|left].
        -- rewrite decide_False; [done|].
           intros [Heq|?]%elem_of_cons; [|done].
           by apply joined2_inj in Heq.
Qed.

Lemma except_classes_loop_bad (self : DefaultTestLoader) (tree : name_tree)
    (order : list string) :
  ∀ tree_k : name_tree,
    (∀ m c, is_Some (get_cls tree_k m c) → is_Some (get_cls tree m c)) →
    Exists (λ x, ¬ names_class tree x) order →
    ∃ msg self',
      for_ order (λ x, '(m, c) ← lift (_get_cls_name_parts repr x);
                       _del_cls_in_name_tree repr m c) (set_name_tree tree_k self)
        = (inl (ValueError msg), self').
Proof.
  induction order as [|x rest IH]; intros tree_k Hsub Hex.
  - by apply Exists_nil in Hex.
  - cbn [for_].
    pose proof (cls_name_parts_spec repr x) as Hspec.
    destruct (_get_cls_name_parts repr x) as [e|[m0 c0]] eqn:Hparse.
    { destruct Hspec as [_ ->]. eexists _, _. reflexivity. }
    destruct Hspec as (_ & -> & Hm0 & Hc0).
    change (lift (inr (m0, c0)) ≫= λ '(m, c), _del_cls_in_name_tree repr m c)
      with (_del_cls_in_name_tree repr m0 c0).
    pose proof (del_cls_run repr (set_name_tree tree_k self) tree_k m0 c0 eq_refl) as Hdel.
    destruct (tree_k !! m0) as [cs|] eqn:Hm.
    2:{ eexists _, _. by erewrite bind_inl. }
    destruct (cs !! c0) as [ms|] eqn:Hc.
    2:{ eexists _, _. by erewrite bind_inl. }
    rewrite (bind_inr _ _ _ _ _ Hdel). apply IH.
    + intros m c. rewrite (tree_without_cls_get_cls _ _ _ _ _ _ Hm).
      destruct (decide (m = m0 ∧ c = c0)); [by intros [? ?]|apply Hsub].
    + apply Exists_cons in Hex as [Hbad|?]; [|done]. exfalso. apply Hbad.
      exists m0, c0. split_and!; [done..|]. apply Hsub.
      unfold get_cls. rewrite Hm. simpl. by rewrite Hc.
Qed.

Lemma except_classes_ok (l : list string) (self : DefaultTestLoader) (tree : name_tree) :
  Forall (names_class tree) l →
  ∃ tree' : name_tree,
    _del_except_classes_in_name_tree repr l (set_name_tree tree self)
      = (inr tt, set_name_tree tree' self) ∧
    ∀ m c, get_cls tree' m c =
           if decide (m ++ "." ++ c ∈ l) then None else get_cls tree m c.
Proof.
  intros Hall.
  assert (∀ x, x ∈ elements (list_to_set l : gset string) ↔ x ∈ l) as Hel.
  { intros x. by rewrite elem_of_elements, elem_of_list_to_set. }
  destruct (except_classes_loop_ok self (elements (list_to_set l : gset string))
              (NoDup_elements _) tree) as (tree' & Hrun & Hget).
  { apply Forall_forall. intros x Hx%Hel. by eapply Forall_forall in Hall. }
  exists tree'. split; [exact Hrun|].
  intros m c. rewrite Hget.
  destruct (decide (_ ∈ elements _)) as [Hin|Hin], (decide (_ ∈ l)) as [Hin'|Hin'];
    try done; by apply Hel in Hin || apply Hel in Hin'.
Qed.

Lemma except_classes_bad (l : list string) (self : DefaultTestLoader) (tree : name_tree) :
  Exists (λ x, ¬ names_class tree x) l →
  ∃ msg self',
    _del_except_classes_in_name_tree repr l (set_name_tree tree self)
      = (inl (ValueError msg), self').
Proof.
  intros Hex. apply (except_classes_loop_bad self tree); [done|].
  apply Exists_exists in Hex as (x & Hx & Hbad). apply Exists_exists.
  exists x. by rewrite elem_of_elements, elem_of_list_to_set.
Qed.

(** X9: [_del_except_classes_in_name_tree] returns exactly when every listed
    name is the [module.class] name of a class entry of the tree, and then
    precisely the listed classes are gone; if one name is not, it raises
    [ValueError]. *)
Theorem except_classes_outcome (l : list string) (self : DefaultTestLoader)
    (tree : name_tree) :
  _name_tree self = Some tree →
  (Forall (names_class tree) l →
   ∃ tree' : name_tree,
     _del_except_classes_in_name_tree repr l self = (inr tt, set_name_tree tree' self) ∧
     ∀ m c, get_cls tree' m c =
            if decide (m ++ "." ++ c ∈ l) then None else get_cls tree m c) ∧
  (Exists (λ x, ¬ names_class tree x) l →
   ∃ msg self',
     _del_except_classes_in_name_tree repr l self = (inl (ValueError msg), self')).
Proof.
  intros Ht. rewrite <- (set_name_tree_id self tree Ht). split.
  - intros Hall. destruct (except_classes_ok l self tree Hall) as (tree' & Hrun & Hget).
    exists tree'. split; [exact Hrun|exact Hget].
  - apply except_classes_bad.
Qed.

Lemma has_mth_lookups (tree : name_tree) m c t :
  has_mth tree m c t →
  ∃ cs ms, tree !! m = Some cs ∧ cs !! c = Some ms ∧ t ∈ ms.
Proof.
  intros (ms & Hg & Hin). unfold get_cls in Hg.
  destruct (tree !! m) as [cs|]; [|done]. eauto.
Qed.

Lemma except_methods_loop_ok (self : DefaultTestLoader) (order : list string) :
  NoDup order →
  ∀ tree : name_tree,
    Forall (names_method tree) order →
    ∃ tree' : name_tree,
      for_ order (λ x, '(m, c, t) ← lift (_get_mth_name_parts repr x);
                       _del_mth_in_name_tree repr m c t) (set_name_tree tree self)
        = (inr tt, set_name_tree tree' self) ∧
      ∀ m c t, has_mth tree' m c t ↔
               has_mth tree m c t ∧ m ++ "." ++ c ++ "." ++ t ∉ order.
Proof.
  induction 1 as [|x rest Hx Hnd IH]; intros tree Hall.
  - exists tree. split; [done|]. intros m c t. split; [|tauto].
    intros ?. split; [done|]. by intros ?%elem_of_nil.
  - apply Forall_cons_1 in Hall as [(m0 & c0 & t0 & -> & Hm0 & Hc0 & Ht0 & Hhas) Hall].
    destruct (has_mth_lookups _ _ _ _ Hhas) as (cs & ms & Hm & Hc & Hin).
    destruct (IH (tree_without_mth tree m0 c0 t0)) as (tree' & Hrun & Hget).
    { apply Forall_forall. intros y Hy.
      destruct (proj1 (Forall_forall _ _) Hall y Hy)
        as (m1 & c1 & t1 & -> & Hm1 & Hc1 & Ht1 & Hs1).
      exists m1, c1, t1. split_and!; [done..|].
      rewrite (tree_without_mth_has_mth _ _ _ _ _ _ _ _ _ Hm Hc).
      split; [done|]. intros (-> & -> & ->). done. }
    exists tree'. split.
    + cbn [for_]. erewrite bind_inr; [exact Hrun|].
      rewrite lift_bind_run, (get_mth_name_parts_join repr m0 c0 t0 Hm0 Hc0 Ht0).
      rewrite (del_mth_run repr (set_name_tree tree self) tree m0 c0 t0 eq_refl), Hm, Hc.
      by rewrite bool_decide_eq_true_2.
    + intros m c t. rewrite Hget, (tree_without_mth_has_mth _ _ _ _ _ _ _ _ _ Hm Hc).
      rewrite not_elem_of_cons. split.
      * intros [[? Hne] ?]. split_and!; [done| |done].
        intros Heq. apply Hne. by apply joined3_inj in Heq.
      * intros [? [Hne ?]]. split_and!; [done| |done].
        intros (-> & -> & ->). done.
Qed.

Lemma except_methods_loop_bad (self : DefaultTestLoader) (tree : name_tree)
    (order : list string) :
  ∀ tree_k : name_tree,
    (∀ m c t, has_mth tree_k m c t → has_mth tree m c t) →
    Exists (λ x, ¬ names_method tree x) order →
    ∃ msg self',
      for_ order (λ x, '(m, c, t) ← lift (_get_mth_name_parts repr x);
                       _del_mth_in_name_tree repr m c t) (set_name_tree tree_k self)
        = (inl (ValueError msg), self').
Proof.
  induction order as [|x rest IH]; intros tree_k Hsub Hex.
  - by apply Exists_nil in Hex.
  - cbn [for_].
    pose proof (mth_name_parts_spec repr x) as Hspec.
    destruct (_get_mth_name_parts repr x) as [e|[[m0 c0] t0]] eqn:Hparse.
    { destruct Hspec as [_ ->]. eexists _, _. reflexivity. }
    destruct Hspec as (_ & -> & Hm0 & Hc0 & Ht0).
    change (lift (inr (m0, c0, t0)) ≫= λ '(m, c, t), _del_mth_in_name_tree repr m c t)
      with (_del_mth_in_name_tree repr m0 c0 t0).
    pose proof (del_mth_run repr (set_name_tree tree_k self) tree_k m0 c0 t0 eq_refl) as Hdel.
    destruct (tree_k !! m0) as [cs|] eqn:Hm.
    2:{ eexists _, _. by erewrite bind_inl. }
    destruct (cs !! c0) as [ms|] eqn:Hc.
    2:{ eexists _, _. by erewrite bind_inl. }
    destruct (decide (t0 ∈ ms)) as [Hin|Hin].
    2:{ rewrite bool_decide_eq_false_2 in Hdel by done. eexists _, _. by erewrite bind_inl. }
    rewrite bool_decide_eq_true_2 in Hdel by done.
    rewrite (bind_inr _ _ _ _ _ Hdel). apply IH.
    + intros m c t. rewrite (tree_without_mth_has_mth _ _ _ _ _ _ _ _ _ Hm Hc).
      intros [? _]. by apply Hsub.
    + apply Exists_cons in Hex as [Hbad|?]; [|done]. exfalso. apply Hbad.
      exists m0, c0, t0. split_and!; [done..|]. apply Hsub.
      exists ms. split; [|done]. unfold get_cls. by rewrite Hm.
Qed.

Lemma except_methods_ok (l : list string) (self : DefaultTestLoader) (tree : name_tree) :
  Forall (names_method tree) l →
  ∃ tree' : name_tree,
    _del_except_methods_in_name_tree repr l (set_name_tree tree self)
      = (inr tt, set_name_tree tree' self) ∧
    ∀ m c t, has_mth tree' m c t ↔
             has_mth tree m c t ∧ m ++ "." ++ c ++ "." ++ t ∉ l.
Proof.
  intros Hall.
  assert (∀ x, x ∈ elements (list_to_set l : gset string) ↔ x ∈ l) as Hel.
  { intros x. by rewrite elem_of_elements, elem_of_list_to_set. }
  destruct (except_methods_loop_ok self (elements (list_to_set l : gset string))
              (NoDup_elements _) tree) as (tree' & Hrun & Hget).
  { apply Forall_forall. intros x Hx%Hel. by eapply Forall_forall in Hall. }
  exists tree'. split; [exact Hrun|].
  intros m c t. rewrite Hget, Hel. done.
Qed.

Lemma except_methods_bad (l : list string) (self : DefaultTestLoader) (tree : name_tree) :
  Exists (λ x, ¬ names_method tree x) l →
  ∃ msg self',
    _del_except_methods_in_name_tree repr l (set_name_tree tree self)
      = (inl (ValueError msg), self').
Proof.
  intros Hex. apply (except_methods_loop_bad self tree); [done|].
  apply Exists_exists in Hex as (x & Hx & Hbad). apply Exists_exists.
  exists x. by rewrite elem_of_elements, elem_of_list_to_set.
Qed.

(** X10: [_del_except_methods_in_name_tree] returns exactly when every listed
    name is the [module.class.method] name of a method of the tree, and then
    precisely the listed methods are gone; if one name is not, it raises
    [ValueError]. *)
Theorem except_methods_outcome (l : list string) (self : DefaultTestLoader)
    (tree : name_tree) :
  _name_tree self = Some tree →
  (Forall (names_method tree) l →
   ∃ tree' : name_tree,
     _del_except_methods_in_name_tree repr l self = (inr tt, set_name_tree tree' self) ∧
     ∀ m c t, has_mth tree' m c t ↔
              has_mth tree m c t ∧ m ++ "." ++ c ++ "." ++ t ∉ l) ∧
  (Exists (λ x, ¬ names_method tree x) l →
   ∃ msg self',
     _del_except_methods_in_name_tree repr l self = (inl (ValueError msg), self')).
Proof.
  intros Ht. rewrite <- (set_name_tree_id self tree Ht). split.
  - intros Hall. destruct (except_methods_ok l self tree Hall) as (tree' & Hrun & Hget).
    exists tree'. split; [exact Hrun|exact Hget].
  - apply except_methods_bad.
Qed.

End ExceptOutcome.

(** ** What a group of granularity [module] or [class] resolves to *)

Section GroupOutcome.

Variable repr : string → string.
Variable readmodule_ex : string → result (gmap string pyclbr_obj).

Lemma when_present_except_classes (o : option (list string)) (self : DefaultTestLoader) :
  when_present o (_del_except_classes_in_name_tree repr) self =
  _del_except_classes_in_name_tree repr (default [] o) self.
Proof. by destruct o. Qed.

Lemma when_present_except_methods (o : option (list string)) (self : DefaultTestLoader) :
  when_present o (_del_except_methods_in_name_tree repr) self =
  _del_except_methods_in_name_tree repr (default [] o) self.
Proof. by destruct o. Qed.

Lemma leaf_names_full (pkg : option string) (tree : name_tree) :
  (∀ m c t, has_mth tree m c t → Py.truthy_opt pkg = true ∨ m ≠ "") →
  leaf_name pkg <$> leaves tree = full_name pkg <$> leaves tree.
Proof.
  intros H. apply fmap_ext_elem_of. intros [[m c] t] Hin%elem_of_leaves.
  apply dotted_full_name. by eapply H.
Qed.

Lemma inspectable_nonempty (pkg : option string) (m : string) content :
  (∃ e, readmodule_ex "" = inl e) →
  _inspect_module readmodule_ex pkg m = inr content →
  Py.truthy_opt pkg = true ∨ m ≠ "".
Proof.
  intros [e He] Hc. destruct (Py.truthy_opt pkg) eqn:Hp; [by left|right].
  intros ->. unfold _inspect_module in Hc. rewrite Hp in Hc. simpl in Hc. congruence.
Qed.

(** The part of a group past the building of the tree: the exclusions,
    then the flattening. *)
Lemma exclude_then_flatten (pkg : option string) (ec em : option (list string))
    (self : DefaultTestLoader) (tree : name_tree) :
  (∀ m c t, has_mth tree m c t → Py.truthy_opt pkg = true ∨ m ≠ "") →
  Forall (names_class tree) (default [] ec) →
  Forall (λ y, ∃ m c t, y = m ++ "." ++ c ++ "." ++ t ∧
                        Py.free_of dot m ∧ Py.free_of dot c ∧ Py.free_of dot t ∧
                        has_mth tree m c t ∧ m ++ "." ++ c ∉ default [] ec)
         (default [] em) →
  ∃ names self',
    (when_present ec (_del_except_classes_in_name_tree repr) ;;
     when_present em (_del_except_methods_in_name_tree repr) ;;
     _get_full_method_names_from_tree pkg) (set_name_tree tree self) = (inr names, self') ∧
    ∀ y, y ∈ names ↔
         ∃ m c t, has_mth tree m c t ∧ (m ++ "." ++ c ∉ default [] ec) ∧
                  (m ++ "." ++ c ++ "." ++ t ∉ default [] em) ∧
                  y = full_name pkg (m, c, t).
Proof.
  intros Hne Hec Hem.
  destruct (except_classes_ok repr _ self tree Hec) as (tree1 & Hrun1 & Hget1).
  assert (∀ m c t, has_mth tree1 m c t ↔ has_mth tree m c t ∧ m ++ "." ++ c ∉ default [] ec)
    as Hhas1.
  { intros m c t. unfold has_mth. rewrite Hget1.
    destruct (decide (m ++ "." ++ c ∈ default [] ec)); [|tauto].
    split; [by intros (? & ? & ?)|tauto]. }
  destruct (except_methods_ok repr (default [] em) self tree1) as (tree2 & Hrun2 & Hhas2).
  { apply Forall_forall. intros y Hy.
    destruct (proj1 (Forall_forall _ _) Hem y Hy) as (m & c & t & -> & ? & ? & ? & ? & ?).
    exists m, c, t. split_and!; [done..|]. by apply Hhas1. }
  destruct (flatten_run pkg (set_name_tree tree2 self) tree2 eq_refl) as (names & Hrun3 & Hperm).
  rewrite leaf_names_full in Hperm.
  2:{ intros m c t H%Hhas2. destruct H as [H%Hhas1 _]. destruct H as [H _]. by eapply Hne. }
  exists names, (set_name_tree tree2 self). split.
  - erewrite bind_inr; [|by rewrite when_present_except_classes].
    erewrite bind_inr; [|by rewrite when_present_except_methods]. done.
  - intros y. rewrite Hperm, list_elem_of_fmap. split.
    + intros ([[m c] t] & -> & Hin%elem_of_leaves). apply Hhas2 in Hin as [Hin ?].
      apply Hhas1 in Hin as [? ?]. by exists m, c, t.
    + intros (m & c & t & ? & ? & ? & ->). exists (m, c, t). split; [done|].
      apply elem_of_leaves, Hhas2. split; [|done]. by apply Hhas1.
Qed.


Lemma exclude_stale (pkg : option string) (ec em : option (list string))
    (self : DefaultTestLoader) (tree : name_tree) :
  Exists (λ x, ¬ names_class tree x) (default [] ec) ∨
  (Forall (names_class tree) (default [] ec) ∧
   Exists (λ y, ¬ ∃ m c t, y = m ++ "." ++ c ++ "." ++ t ∧
                           Py.free_of dot m ∧ Py.free_of dot c ∧ Py.free_of dot t ∧
                           has_mth tree m c t ∧ m ++ "." ++ c ∉ default [] ec)
          (default [] em)) →
  ∃ msg self',
    (when_present ec (_del_except_classes_in_name_tree repr) ;;
     when_present em (_del_except_methods_in_name_tree repr) ;;
     _get_full_method_names_from_tree pkg) (set_name_tree tree self)
      = (inl (ValueError msg), self').
Proof.
  intros [Hbad|[Hec Hbad]].
  - destruct (except_classes_bad repr _ self tree Hbad) as (msg & self' & Hrun).
    exists msg, self'. erewrite bind_inl; [done|]. by rewrite when_present_except_classes.
  - destruct (except_classes_ok repr _ self tree Hec) as (tree1 & Hrun1 & Hget1).
    destruct (except_methods_bad repr (default [] em) self tree1) as (msg & self' & Hrun2).
    { apply Exists_exists in Hbad as (y & Hy & Hbad). apply Exists_exists.
      exists y. split; [done|]. intros (m & c & t & -> & ? & ? & ? & (ms & Hg & Hin)).
      apply Hbad. exists m, c, t. rewrite Hget1 in Hg.
      destruct (decide (m ++ "." ++ c ∈ default [] ec)); [done|].
      split_and!; [done..| |done]. by exists ms. }
    exists msg, self'.
    erewrite bind_inr; [|by rewrite when_present_except_classes].
    erewrite bind_inl; [done|]. by rewrite when_present_except_methods.
Qed.


Lemma class_modules_spec (l : list string) :
  ∀ acc : gset string,
    (Forall (λ x, Py.count dot x = 1) l →
     ∃ S : gset string,
       class_modules repr l acc = inr S ∧
       ∀ m, m ∈ S ↔ m ∈ acc ∨ ∃ c, m ++ "." ++ c ∈ l) ∧
    (Exists (λ x, Py.count dot x ≠ 1) l →
     ∃ msg, class_modules repr l acc = inl (ValueError msg)).
Proof.
  induction l as [|x l IH]; intros acc; cbn [class_modules].
  - split; [|by intros ?%Exists_nil]. intros _. exists acc. split; [done|].
    intros m. split; [by left|]. intros [?|[c Hc%elem_of_nil]]; done.
  - pose proof (cls_name_parts_spec repr x) as Hx.
    destruct (_get_cls_name_parts repr x) as [e|[m0 c0]].
    + destruct Hx as [Hne ->]. split; [|eauto].
      intros [? _]%Forall_cons_1. done.
    + destruct Hx as (Hone & -> & Hm0 & Hc0).
      destruct (IH (acc ∪ {[m0]})) as [IH1 IH2]. split.
      * intros [_ Hall]%Forall_cons_1. destruct (IH1 Hall) as (S & -> & HS).
        exists S. split; [done|]. intros m. rewrite HS, elem_of_union, elem_of_singleton.
        split.
        -- intros [[?| ->]|[c Hc]]; [by left|right..].
           ++ exists c0. left.
           ++ exists c. by right.
        -- intros [?|[c [Heq|Hc]%elem_of_cons]]; [by left; left| |right; by exists c].
           left. right. by apply joined2_inj in Heq as [-> _].
      * intros [?|Hex]%Exists_cons; [done|]. by apply IH2.
Qed.


End GroupOutcome.

(** ** Errors of a group, and the outcome of a suite and of the whole
    configuration *)

Section ConfigOutcome.

Variable repr : string → string.
Variable readmodule_ex : string → result (gmap string pyclbr_obj).

Lemma parse_groups_outcome pkg (gs : list (string * group)) :
  ∀ (acc : list string) (self : DefaultTestLoader),
    match fst (parse_groups repr readmodule_ex pkg gs acc self) with
    | inr _ =>
        ∀ k g, (k, g) ∈ gs → disabled g = false →
               ∃ names, fst (parse_group repr readmodule_ex pkg g self) = inr names
    | inl e =>
        ∃ k g, (k, g) ∈ gs ∧ disabled g = false ∧
               fst (parse_group repr readmodule_ex pkg g self) = inl e
    end.
Proof.
  induction gs as [|[k g] gs IH]; intros acc self.
  - simpl. intros k g Hin. by apply elem_of_nil in Hin.
  - cbn [parse_groups]. destruct (disabled g) eqn:Hd.
    + specialize (IH acc self).
      destruct (fst (parse_groups repr readmodule_ex pkg gs acc self)) as [e|names].
      * destruct IH as (k' & g' & ? & ? & ?). exists k', g'. split_and!; [by right|done..].
      * intros k' g' [[= -> ->]|Hin]%elem_of_cons Hd'; [congruence|by eapply IH].
    + unfold mbind, M_bind, bind.
      pose proof (keeps_parse_group repr readmodule_ex pkg g self) as Hk.
      destruct (parse_group repr readmodule_ex pkg g self) as [[e|names] self1] eqn:Hg.
      * simpl. exists k, g. split_and!; [left|done|]. by rewrite Hg.
      * simpl in Hk. specialize (IH (acc ++ names)%list self1).
        destruct (fst (parse_groups repr readmodule_ex pkg gs (acc ++ names) self1))
          as [e|names'].
        -- destruct IH as (k' & g' & ? & ? & He). exists k', g'.
           split_and!; [by right|done|].
           by rewrite <- (parse_group_indep repr readmodule_ex pkg g' self1 self Hk).
        -- intros k' g' [[= -> ->]|Hin]%elem_of_cons Hd'.
           ++ exists names. by rewrite Hg.
           ++ rewrite <- (parse_group_indep repr readmodule_ex pkg g' self1 self Hk).
              by eapply IH.
Qed.

Lemma unknown_granularity_run (pkg : option string) (g : group) (self : DefaultTestLoader) :
  granularity g ≠ "module" → granularity g ≠ "class" → granularity g ≠ "method" →
  parse_group repr readmodule_ex pkg g self =
    (inl (ValueError "Granularity must be in ['module', 'class', 'method']."), self).
Proof.
  intros H1%String.eqb_neq H2%String.eqb_neq H3%String.eqb_neq.
  unfold parse_group. by rewrite H1, H2, H3.
Qed.

(** X14: A group whose granularity is none of [module], [class] and [method]
    raises [ValueError] with the message of line 125, and a group that lacks
    the key of its targets raises [KeyError] for that key; the loader is left
    as it was.  A suite with such a group raises, unless the group is
    disabled. *)
Theorem group_errors (pkg : option string) (g : group) (self : DefaultTestLoader) :
  (granularity g ≠ "module" → granularity g ≠ "class" → granularity g ≠ "method" →
   parse_group repr readmodule_ex pkg g self =
     (inl (ValueError "Granularity must be in ['module', 'class', 'method']."), self)) ∧
  (granularity g = "module" → modules g = None →
   parse_group repr readmodule_ex pkg g self = (inl (KeyError "modules"), self)) ∧
  (granularity g = "class" → classes g = None →
   parse_group repr readmodule_ex pkg g self = (inl (KeyError "classes"), self)) ∧
  (granularity g = "method" → methods_ g = None →
   parse_group repr readmodule_ex pkg g self = (inl (KeyError "methods"), self)) ∧
  (∀ (s : suite) k e,
     pkg = pkg_name_of s → groups s !! k = Some g → disabled g = false →
     fst (parse_group repr readmodule_ex pkg g self) = inl e →
     ∃ e' self', parse_suite repr readmodule_ex s self = (inl e', self')).
Proof.
  split_and!.
  - apply unknown_granularity_run.
  - unfold parse_group. intros -> ->. done.
  - unfold parse_group. intros -> ->. done.
  - unfold parse_group. intros -> ->. done.
  - intros s k e -> Hk Hd He.
    pose proof (parse_groups_outcome (pkg_name_of s) (map_to_list (groups s)) [] self) as Ho.
    unfold parse_suite, mbind, M_bind, bind.
    destruct (parse_groups repr readmodule_ex (pkg_name_of s) (map_to_list (groups s)) [] self)
      as [[e'|names] self1]; [by eauto|].
    simpl in Ho. destruct (Ho k g) as [names' Hn]; [by apply elem_of_map_to_list|done|].
    congruence.
Qed.


Lemma parse_groups_indep pkg (gs : list (string * group)) :
  ∀ (acc : list string) (self1 self2 : DefaultTestLoader),
    method_prefix self1 = method_prefix self2 →
    fst (parse_groups repr readmodule_ex pkg gs acc self1) =
    fst (parse_groups repr readmodule_ex pkg gs acc self2).
Proof.
  induction gs as [|[k g] gs IH]; intros acc self1 self2 Hp; [done|].
  cbn [parse_groups]. destruct (disabled g); [by apply IH|].
  unfold mbind, M_bind, bind.
  pose proof (keeps_parse_group repr readmodule_ex pkg g self1) as Hk1.
  pose proof (keeps_parse_group repr readmodule_ex pkg g self2) as Hk2.
  pose proof (parse_group_indep repr readmodule_ex pkg g self1 self2 Hp) as Hi.
  destruct (parse_group repr readmodule_ex pkg g self1) as [[e1|n1] s1],
           (parse_group repr readmodule_ex pkg g self2) as [[e2|n2] s2];
    simpl in *; try congruence.
  injection Hi as ->. apply IH. congruence.
Qed.

Lemma parse_suite_indep (s : suite) (self1 self2 : DefaultTestLoader) :
  method_prefix self1 = method_prefix self2 →
  fst (parse_suite repr readmodule_ex s self1) = fst (parse_suite repr readmodule_ex s self2).
Proof.
  intros Hp. unfold parse_suite, mbind, M_bind, bind.
  pose proof (parse_groups_indep (pkg_name_of s) (map_to_list (groups s)) [] self1 self2 Hp)
    as Hi.
  destruct (parse_groups _ _ _ _ _ self1) as [[e1|n1] s1],
           (parse_groups _ _ _ _ _ self2) as [[e2|n2] s2]; simpl in *; congruence.
Qed.

Lemma parse_suites_outcome (conf : dict_conf) (names : list string) :
  ∀ res0 (self : DefaultTestLoader),
    match fst (parse_suites repr readmodule_ex conf names res0 self) with
    | inr res =>
        (∀ name, name ∈ names →
                 ∃ s r, suites conf !! name = Some s ∧
                        fst (parse_suite repr readmodule_ex s self) = inr r ∧
                        res !! name = Some r) ∧
        (∀ name, name ∉ names → res !! name = res0 !! name)
    | inl e =>
        ∃ name, name ∈ names ∧
                (suites conf !! name = None ∧ e = KeyError name ∨
                 ∃ s, suites conf !! name = Some s ∧
                      fst (parse_suite repr readmodule_ex s self) = inl e)
    end.
Proof.
  induction names as [|n names IH]; intros res0 self.
  - simpl. split; [|done]. intros name Hin. by apply elem_of_nil in Hin.
  - cbn [parse_suites]. rewrite lift_bind_run. unfold getitem.
    destruct (suites conf !! n) as [s|] eqn:Hs.
    2:{ simpl. exists n. split; [left|]. by left. }
    unfold mbind at 1, M_bind, bind.
    pose proof (keeps_parse_suite repr readmodule_ex s self) as Hk.
    destruct (parse_suite repr readmodule_ex s self) as [[e|r] self1] eqn:Hp.
    { simpl. exists n. split; [left|]. right. exists s. by rewrite Hp. }
    simpl in Hk. specialize (IH (<[n := r]> res0) self1).
    destruct (fst (parse_suites repr readmodule_ex conf names (<[n:=r]> res0) self1))
      as [e|res].
    + destruct IH as (name & Hin & [[? ?]|(s' & ? & He)]); exists name;
        (split; [by right|]); [by left|right].
      exists s'. split; [done|].
      by rewrite <- (parse_suite_indep s' self1 self Hk).
    + destruct IH as [IH1 IH2]. split.
      * intros name Hin. destruct (decide (name ∈ names)) as [Hin'|Hin'].
        -- destruct (IH1 name Hin') as (s' & r' & ? & Hr & ?). exists s', r'.
           split_and!; [done| |done].
           by rewrite <- (parse_suite_indep s' self1 self Hk).
        -- apply elem_of_cons in Hin as [->|?]; [|done]. exists s, r.
           split_and!; [done|by rewrite Hp|]. by rewrite IH2, lookup_insert_eq.
      * intros name [Hne Hnin]%not_elem_of_cons.
        by rewrite IH2, lookup_insert_ne.
Qed.

(** X16: when [_parse_tests_from_dict] returns, its dictionary has one entry
    for each name listed under [test.suites], the entry the suite of that
    name resolves to; when it raises, a listed name is not a configured
    suite ([KeyError]) or the suite of a listed name raises that
    exception. *)
Theorem parse_tests_from_dict_outcome (conf : dict_conf) (self : DefaultTestLoader) :
  match fst (_parse_tests_from_dict repr readmodule_ex conf self) with
  | inr res =>
      dom res = list_to_set (test_suites conf) ∧
      ∀ name r, res !! name = Some r ↔
                name ∈ test_suites conf ∧
                ∃ s, suites conf !! name = Some s ∧
                     fst (parse_suite repr readmodule_ex s self) = inr r
  | inl e =>
      ∃ name, name ∈ test_suites conf ∧
              (suites conf !! name = None ∧ e = KeyError name ∨
               ∃ s, suites conf !! name = Some s ∧
                    fst (parse_suite repr readmodule_ex s self) = inl e)
  end.
Proof.
  pose proof (parse_suites_outcome conf (test_suites conf) ∅ self) as Ho.
  unfold _parse_tests_from_dict.
  destruct (fst (parse_suites repr readmodule_ex conf (test_suites conf) ∅ self))
    as [e|res]; [done|].
  destruct Ho as [H1 H2].
  assert (∀ name r, res !! name = Some r ↔
                    name ∈ test_suites conf ∧
                    ∃ s, suites conf !! name = Some s ∧
                         fst (parse_suite repr readmodule_ex s self) = inr r) as Hent.
  { intros name r. split.
    - intros Hr. destruct (decide (name ∈ test_suites conf)) as [Hin|Hin].
      + split; [done|]. destruct (H1 name Hin) as (s & r' & ? & ? & ?).
        exists s. split; [done|]. congruence.
      + rewrite (H2 name Hin), lookup_empty in Hr. done.
    - intros [Hin (s & Hs & Hr)]. destruct (H1 name Hin) as (s' & r' & ? & ? & ?).
      congruence. }
  split; [|done]. apply set_eq. intros name.
  rewrite elem_of_dom, elem_of_list_to_set. split.
  - intros [r Hr]. by apply Hent in Hr as [? _].
  - intros Hin. destruct (H1 name Hin) as (s & r & ? & ? & ?). by exists r.
Qed.

End ConfigOutcome.

(** ** More on loading cases *)

Section CaseLoaderOutcome.

Variable pyobj : Type.
Variable py_import : string → result pyobj.
Variable py_getattr : pyobj → string → result pyobj.
Variable is_FunctionType : pyobj → bool.
Variable is_case_class : pyobj → bool.
Variable new_case : pyobj → string → result pyobj.

Abbreviation the_import_loop := (import_loop pyobj py_import).
Abbreviation the_make_case := (_make_case_from_full_name pyobj py_import py_getattr
                                 is_FunctionType is_case_class new_case).
Abbreviation the_load := (load_tests_from_full_names pyobj py_import py_getattr
                            is_FunctionType is_case_class new_case).

Lemma import_loop_step (pre : list string) (x : string) :
  pre ≠ [] →
  py_import (Py.join "." (pre ++ [x])%list) = inl ImportError →
  the_import_loop (rev (pre ++ [x])%list) = the_import_loop (rev pre).
Proof.
  intros Hpre Himp. rewrite rev_unit. cbn [import_loop].
  change (x :: rev pre) with (rev [x] ++ rev pre)%list.
  rewrite <- rev_app_distr, rev_involutive, Himp. simpl.
  destruct (rev pre) as [|y rest] eqn:Hr; [|done].
  exfalso. apply Hpre. apply (f_equal (@rev string)) in Hr.
  by rewrite rev_involutive in Hr.
Qed.

Lemma import_loop_last (pre : list string) :
  pre ≠ [] →
  the_import_loop (rev pre) =
    match py_import (Py.join "." pre) with
    | inr mod_ => inr (Some mod_)
    | inl e =>
        if is_ImportError e
        then match rev pre with
             | [_] => inl e
             | _ => the_import_loop (tail (rev pre))
             end
        else inl e
    end.
Proof.
  intros Hpre. destruct (rev pre) as [|y rest] eqn:Hr.
  { exfalso. apply Hpre. apply (f_equal (@rev string)) in Hr.
    by rewrite rev_involutive in Hr. }
  assert (rev (y :: rest) = pre) as Hp by (rewrite <- Hr; apply rev_involutive).
  cbn [import_loop tail]. rewrite Hp.
  destruct (py_import (Py.join "." pre)) as [e|m]; [|done].
  destruct (is_ImportError e); [|done]. by destruct rest.
Qed.

(** X18: the import loop drops last segments as long as the import raises
    [ImportError]: if every prefix of the name longer than [pre] does, the
    loop ends with what importing [pre] gives, a module, or an exception
    other than [ImportError], or [ImportError] when [pre] is the first
    segment alone. *)
Theorem import_loop_longest_prefix (pre suf : list string) :
  pre ≠ [] →
  (∀ suf1 suf2, suf = (suf1 ++ suf2)%list → suf1 ≠ [] →
                py_import (Py.join "." (pre ++ suf1)%list) = inl ImportError) →
  (∀ mod_, py_import (Py.join "." pre) = inr mod_ →
           import_loop pyobj py_import (rev (pre ++ suf)%list) = inr (Some mod_)) ∧
  (∀ e, py_import (Py.join "." pre) = inl e → is_ImportError e = false →
        import_loop pyobj py_import (rev (pre ++ suf)%list) = inl e) ∧
  (py_import (Py.join "." pre) = inl ImportError → length pre = 1 →
   import_loop pyobj py_import (rev (pre ++ suf)%list) = inl ImportError).
Proof.
  intros Hpre. induction suf as [|x suf IH] using rev_ind; intros Hfail.
  - rewrite app_nil_r, (import_loop_last pre Hpre). split_and!.
    + by intros m ->.
    + intros e -> He. by rewrite He.
    + intros -> Hlen. simpl. destruct pre as [|a [|b pre]]; done.
  - assert (the_import_loop (rev (pre ++ suf ++ [x])%list)
            = the_import_loop (rev (pre ++ suf)%list)) as ->.
    { rewrite app_assoc. apply import_loop_step; [by destruct pre|].
      rewrite <- app_assoc. by apply (Hfail (suf ++ [x])%list []); [rewrite app_nil_r|destruct suf]. }
    apply IH. intros suf1 suf2 -> Hne.
    apply (Hfail suf1 (suf2 ++ [x])%list); [by rewrite app_assoc|done].
Qed.

(** X19: A name of one segment never loads a case: it has no owner. *)
Theorem single_segment_loads_nothing (name : string) (case : pyobj) :
  Py.count dot name = 0 →
  _make_case_from_full_name pyobj py_import py_getattr is_FunctionType
    is_case_class new_case name ≠ inr (Some case).
Proof.
  intros Hfree. unfold _make_case_from_full_name, resolve.
  rewrite (split_free_id dot name Hfree). cbn [rev app tail walk].
  destruct (import_loop pyobj py_import [name]) as [e|mod_]; [done|].
  cbn [mbind result_bind]. by destruct (negb _).
Qed.

Lemma make_cases_outcome (names : list string) :
  match make_cases pyobj py_import py_getattr is_FunctionType is_case_class new_case names with
  | inr rs => Forall2 (λ n r, the_make_case n = inr r) names rs
  | inl e => ∃ n, n ∈ names ∧ the_make_case n = inl e
  end.
Proof.
  induction names as [|n names IH]; cbn [make_cases]; [constructor|].
  destruct (the_make_case n) as [e|r] eqn:Hn; cbn [mbind result_bind].
  { exists n. split; [left|done]. }
  destruct (make_cases _ _ _ _ _ _ names) as [e|rs]; cbn [mbind result_bind].
  - destruct IH as (n' & ? & ?). exists n'. split; [by right|done].
  - by constructor.
Qed.

(** X20: [load_tests_from_full_names] returns exactly when every name makes a
    case or [None]; the suite then holds the cases made, in the order of the
    names, so never more cases than names.  When it raises, the exception is
    the one some name raised. *)
Theorem load_tests_outcome (names : list string) :
  match load_tests_from_full_names pyobj py_import py_getattr is_FunctionType
          is_case_class new_case names with
  | inr cases =>
      ∃ rs, Forall2 (λ n r, _make_case_from_full_name pyobj py_import py_getattr
                              is_FunctionType is_case_class new_case n = inr r) names rs ∧
            cases = omap id rs ∧ (length cases ≤ length names)%nat
  | inl e => ∃ n, n ∈ names ∧
                  _make_case_from_full_name pyobj py_import py_getattr
                    is_FunctionType is_case_class new_case n = inl e
  end.
Proof.
  pose proof (make_cases_outcome names) as Ho. unfold load_tests_from_full_names.
  destruct (make_cases _ _ _ _ _ _ names) as [e|rs]; cbn [mbind result_bind]; [done|].
  exists rs. split_and!; [done..|].
  rewrite (Forall2_length _ _ _ Ho). clear Ho.
  induction rs as [|[r|] rs IH]; csimpl; lia.
Qed.

End CaseLoaderOutcome.

(** ** The driver *)

Section DriverOutcome.

Variable repr : string → string.
Variable readmodule_ex : string → result (gmap string pyclbr_obj).
Variable pyobj : Type.
Variable py_import : string → result pyobj.
Variable py_getattr : pyobj → string → result pyobj.
Variable is_FunctionType : pyobj → bool.
Variable is_case_class : pyobj → bool.
Variable new_case : pyobj → string → result pyobj.

Abbreviation load_names_of r :=
  (load_tests_from_full_names pyobj py_import py_getattr is_FunctionType is_case_class
     new_case (elements (res_test_case_names r))).
Abbreviation the_load_suites :=
  (load_suites pyobj py_import py_getattr is_FunctionType is_case_class new_case).

Lemma load_suites_outcome (items : list (string * parsed_suite)) :
  NoDup (items.*1) →
  ∀ out0 (self : DefaultTestLoader),
    snd (the_load_suites items out0 self) = self ∧
    match fst (the_load_suites items out0 self) with
    | inr out =>
        (∀ name r, (name, r) ∈ items →
                   ∃ cases, load_names_of r = inr cases ∧
                            out !! name = Some {| ls_package := res_package r;
                                                  ls_suite := cases;
                                                  ls_max_workers := res_max_workers r |}) ∧
        (∀ name, name ∉ items.*1 → out !! name = out0 !! name)
    | inl e => ∃ name r, (name, r) ∈ items ∧ load_names_of r = inl e
    end.
Proof.
  induction items as [|[n r] items IH]; intros Hnd out0 self.
  - split; [done|]. simpl. split; [|done]. intros name r Hin. by apply elem_of_nil in Hin.
  - cbn [load_suites]. rewrite lift_bind_run.
    apply NoDup_cons in Hnd as [Hn Hnd].
    destruct (load_names_of r) as [e|cases] eqn:Hl.
    { split; [done|]. simpl. exists n, r. split; [left|done]. }
    destruct (IH Hnd (<[n := {| ls_package := res_package r; ls_suite := cases;
                                ls_max_workers := res_max_workers r |}]> out0) self)
      as [Hs Ho].
    split; [done|].
    destruct (fst (the_load_suites items _ self)) as [e|out].
    + destruct Ho as (name & r' & ? & ?). exists name, r'. split; [by right|done].
    + destruct Ho as [H1 H2]. split.
      * intros name r' [[= -> ->]|Hin]%elem_of_cons; [|by apply H1].
        exists cases. split; [done|]. rewrite H2 by done. apply lookup_insert_eq.
      * intros name Hnin. cbn [fmap list_fmap fst] in Hnin.
        apply not_elem_of_cons in Hnin as [? ?].
        rewrite H2 by done. by apply lookup_insert_ne.
Qed.

(** X21: when [load_test_from_dict] returns, its dictionary has an entry for
    each parsed suite and no other; the entry carries the parsed [package]
    and [max_workers] unchanged and the cases loaded from the suite's names,
    none for a suite without names.  When it raises, the parsing raised, or
    the loading of the names of a parsed suite did. *)
Theorem load_test_from_dict_outcome (conf : dict_conf) (self : DefaultTestLoader) :
  match fst (load_test_from_dict repr readmodule_ex pyobj py_import py_getattr
               is_FunctionType is_case_class new_case conf self) with
  | inr out =>
      ∃ parsed,
        fst (_parse_tests_from_dict repr readmodule_ex conf self) = inr parsed ∧
        dom out = dom parsed ∧
        ∀ name r, parsed !! name = Some r →
                  ∃ cases, load_names_of r = inr cases ∧
                           (res_test_case_names r = ∅ → cases = []) ∧
                           out !! name = Some {| ls_package := res_package r;
                                                 ls_suite := cases;
                                                 ls_max_workers := res_max_workers r |}
  | inl e =>
      fst (_parse_tests_from_dict repr readmodule_ex conf self) = inl e ∨
      ∃ parsed name r,
        fst (_parse_tests_from_dict repr readmodule_ex conf self) = inr parsed ∧
        parsed !! name = Some r ∧ load_names_of r = inl e
  end.
Proof.
  unfold load_test_from_dict, mbind, M_bind, bind.
  destruct (_parse_tests_from_dict repr readmodule_ex conf self) as [[e|parsed] self1];
    [by left|].
  destruct (load_suites_outcome (map_to_list parsed) (NoDup_fst_map_to_list parsed) ∅ self1)
    as [_ Ho].
  destruct (fst (the_load_suites (map_to_list parsed) ∅ self1)) as [e|out].
  - right. destruct Ho as (name & r & Hin%elem_of_map_to_list & ?). by exists parsed, name, r.
  - destruct Ho as [H1 H2]. exists parsed. split; [done|]. split.
    + apply set_eq. intros name. rewrite !elem_of_dom. split.
      * intros [x Hx]. destruct (parsed !! name) as [r|] eqn:Hr; [done|].
        rewrite H2, lookup_empty in Hx; [done|].
        intros ([n r] & -> & Hin%elem_of_map_to_list)%list_elem_of_fmap. simpl in Hr.
        congruence.
      * intros [r Hr%elem_of_map_to_list]. destruct (H1 name r Hr) as (cases & _ & ->).
        done.
    + intros name r Hr%elem_of_map_to_list. destruct (H1 name r Hr) as (cases & Hl & Hout).
      exists cases. split_and!; [done| |done].
      intros Hemp. rewrite Hemp, elements_empty in Hl. by injection Hl as <-.
Qed.

End DriverOutcome.

(** ** The loader across calls *)

Section AcrossCalls.

Variable repr : string → string.
Variable readmodule_ex : string → result (gmap string pyclbr_obj).

Lemma keeps_parse_suites (conf : dict_conf) (names : list string) :
  ∀ res0, keeps_prefix (parse_suites repr readmodule_ex conf names res0).
Proof.
  induction names as [|n names IH]; intros res0; cbn [parse_suites].
  - apply keeps_ret.
  - apply keeps_bind; [apply keeps_lift|]. intros s.
    apply keeps_bind; [apply keeps_parse_suite|]. intros r. apply IH.
Qed.

Lemma parse_suites_indep (conf : dict_conf) (names : list string) :
  ∀ res0 (self1 self2 : DefaultTestLoader),
    method_prefix self1 = method_prefix self2 →
    fst (parse_suites repr readmodule_ex conf names res0 self1) =
    fst (parse_suites repr readmodule_ex conf names res0 self2).
Proof.
  induction names as [|n names IH]; intros res0 self1 self2 Hp; [done|].
  cbn [parse_suites]. rewrite !lift_bind_run.
  destruct (getitem (suites conf) n) as [e|s]; [done|].
  unfold mbind, M_bind, bind.
  pose proof (keeps_parse_suite repr readmodule_ex s self1) as Hk1.
  pose proof (keeps_parse_suite repr readmodule_ex s self2) as Hk2.
  pose proof (parse_suite_indep repr readmodule_ex s self1 self2 Hp) as Hi.
  destruct (parse_suite repr readmodule_ex s self1) as [[e1|r1] s1],
           (parse_suite repr readmodule_ex s self2) as [[e2|r2] s2];
    simpl in *; try congruence.
  injection Hi as ->. apply IH. congruence.
Qed.

(** X17: what a group resolves to, and what [_parse_tests_from_dict] returns
    or raises, does not depend on the name tree an earlier call left in the
    loader; and no call reassigns the method prefix. *)
Theorem parse_ignores_previous_tree (conf : dict_conf) (self : DefaultTestLoader)
    (tree0 : name_tree) :
  (∀ pkg g, fst (parse_group repr readmodule_ex pkg g (set_name_tree tree0 self)) =
            fst (parse_group repr readmodule_ex pkg g self)) ∧
  fst (_parse_tests_from_dict repr readmodule_ex conf (set_name_tree tree0 self)) =
    fst (_parse_tests_from_dict repr readmodule_ex conf self) ∧
  method_prefix (snd (_parse_tests_from_dict repr readmodule_ex conf self)) =
    method_prefix self.
Proof.
  split_and!.
  - intros pkg g. by apply parse_group_indep.
  - by apply parse_suites_indep.
  - apply keeps_parse_suites.
Qed.

End AcrossCalls.

(** * The further properties on the fixtures *)

Lemma fx_free_of_dot_m : Py.free_of dot "m".
Proof. reflexivity. Qed.

Lemma fx_declared_test_b : declared fx_readmodule_ex fx_loader None "m" "C" "test_b".
Proof.
  exists fx_module_m, fx_class_C. split_and!; [reflexivity|by vm_compute| |reflexivity].
  exists 4%Z. by vm_compute.
Qed.

Lemma fx_inspectable (m : string) :
  m ∈ ["m"] → ∃ content, _inspect_module fx_readmodule_ex None m = inr content.
Proof. intros ->%list_elem_of_singleton. by exists fx_module_m. Qed.

Lemma name_parts_of_joined_fixture :
  _get_cls_name_parts quote_repr (Py.join "." ["m"; "C"]) = inr ("m", "C") ∧
  _get_mth_name_parts quote_repr (Py.join "." ["m"; "C"; "test_a"]) = inr ("m", "C", "test_a").
Proof. apply (name_parts_of_joined quote_repr "m" "C" "test_a"); reflexivity. Defined.

Lemma build_with_class_filter_fixture :
  ∃ tree : name_tree,
    _build_name_tree fx_readmodule_ex None {["m"]} (Some {["m.C"]}) fx_loader
      = (inr tt, set_name_tree tree fx_loader) ∧
    ∀ m c t, has_mth tree m c t ↔
             m ∈ ({["m"]} : gset string) ∧ declared fx_readmodule_ex fx_loader None m c t ∧
             (({["m.C"]} : gset string) = ∅ ∨ Py.join "." [m; c] ∈ ({["m.C"]} : gset string)).
Proof.
  apply (build_with_class_filter fx_readmodule_ex None {["m.C"]} fx_loader {["m"]}).
  intros m Hm. apply elem_of_singleton in Hm as ->. by exists fx_module_m.
Defined.

Lemma no_tree_raises_TypeError_fixture :
  _del_cls_in_name_tree quote_repr "m" "C" fx_loader = (inl TypeError, fx_loader) ∧
  _del_mth_in_name_tree quote_repr "m" "C" "test_a" fx_loader = (inl TypeError, fx_loader) ∧
  _get_full_method_names_from_tree None fx_loader = (inl TypeError, fx_loader).
Proof. apply (no_tree_raises_TypeError quote_repr fx_loader None "m" "C" "test_a"). reflexivity. Defined.

Lemma delete_twice_fails_fixture :
  ∃ msg, _del_cls_in_name_tree quote_repr "m" "C" (set_name_tree ∅ fx_built)
         = (inl (ValueError msg), set_name_tree ∅ fx_built).
Proof.
  apply (proj1 (delete_twice_fails quote_repr fx_built (set_name_tree ∅ fx_built)
                  "m" "C" "test_a")).
  vm_compute. reflexivity.
Defined.

Lemma delete_last_method_is_delete_class_fixture :
  _del_mth_in_name_tree quote_repr "m" "C" "test_a"
    (set_name_tree {[ "m" := {[ "C" := {[ "test_a" ]} ]} ]} fx_loader) =
  _del_cls_in_name_tree quote_repr "m" "C"
    (set_name_tree {[ "m" := {[ "C" := {[ "test_a" ]} ]} ]} fx_loader).
Proof.
  apply (delete_last_method_is_delete_class quote_repr _
           {[ "m" := {[ "C" := {[ "test_a" ]} ]} ]} "m" "C" "test_a");
    [reflexivity|].
  unfold get_cls. rewrite lookup_singleton_eq. simpl. apply lookup_singleton_eq.
Defined.

Lemma flatten_after_delete_fixture :
  ∃ names,
    _get_full_method_names_from_tree None
      (set_name_tree (tree_without_mth fx_tree "m" "C" "test_b") fx_built)
      = (inr names, set_name_tree (tree_without_mth fx_tree "m" "C" "test_b") fx_built) ∧
    names ≡ₚ leaf_name None <$> filter (λ leaf, leaf ≠ ("m", "C", "test_b")) (leaves fx_tree).
Proof.
  apply (proj2 (flatten_after_delete quote_repr fx_built _ fx_tree None "m" "C" "test_b"
                  eq_refl)).
  vm_compute. reflexivity.
Defined.

Lemma fx_tree_dot_free (m c t : string) :
  has_mth fx_tree m c t → Py.free_of dot c ∧ Py.free_of dot t.
Proof.
  intros (cs & ms & Hm & Hc & Ht)%has_mth_lookups. unfold fx_tree in Hm.
  apply lookup_singleton_Some in Hm as [_ <-]. unfold fx_classes in Hc.
  apply lookup_singleton_Some in Hc as [<- <-]. unfold fx_methods in Ht.
  apply elem_of_union in Ht as [->%elem_of_singleton| ->%elem_of_singleton]; by split.
Qed.

Lemma flatten_names_distinct_fixture :
  ∃ names,
    _get_full_method_names_from_tree None fx_built = (inr names, fx_built) ∧
    NoDup names ∧ length names = length (leaves fx_tree) ∧
    names ≡ₚ full_name None <$> leaves fx_tree.
Proof.
  apply (flatten_names_distinct fx_built fx_tree None eq_refl).
  - right. reflexivity.
  - apply fx_tree_dot_free.
Defined.

Lemma except_classes_outcome_fixture :
  ∃ tree' : name_tree,
    _del_except_classes_in_name_tree quote_repr ["m.C"] fx_built
      = (inr tt, set_name_tree tree' fx_built) ∧
    ∀ m c, get_cls tree' m c =
           if decide (m ++ "." ++ c ∈ ["m.C"]) then None else get_cls fx_tree m c.
Proof.
  apply (proj1 (except_classes_outcome quote_repr ["m.C"] fx_built fx_tree eq_refl)).
  repeat constructor. exists "m", "C". split_and!; [reflexivity..|].
  exists fx_methods. reflexivity.
Defined.

Lemma except_methods_outcome_fixture :
  ∃ tree' : name_tree,
    _del_except_methods_in_name_tree quote_repr ["m.C.test_b"] fx_built
      = (inr tt, set_name_tree tree' fx_built) ∧
    ∀ m c t, has_mth tree' m c t ↔
             has_mth fx_tree m c t ∧ m ++ "." ++ c ++ "." ++ t ∉ ["m.C.test_b"].
Proof.
  apply (proj1 (except_methods_outcome quote_repr ["m.C.test_b"] fx_built fx_tree eq_refl)).
  repeat constructor. exists "m", "C", "test_b". split_and!; [reflexivity..|].
  exists fx_methods. split; [reflexivity|]. unfold fx_methods. apply elem_of_union_r.
  by apply elem_of_singleton.
Defined.




Lemma import_loop_longest_prefix_fixture :
  import_loop fx_obj fx_import (rev (["m"] ++ ["C"; "test_a"])%list) = inr (Some ModM).
Proof.
  apply (proj1 (import_loop_longest_prefix fx_obj fx_import ["m"] ["C"; "test_a"]
                  ltac:(discriminate)
                  ltac:(intros [|a suf1] suf2 _ H; [done|reflexivity]))).
  reflexivity.
Defined.

Lemma single_segment_loads_nothing_fixture :
  _make_case_from_full_name fx_obj fx_import fx_getattr fx_is_FunctionType
    fx_is_case_class fx_new_case "m" ≠ inr (Some ModM).
Proof.
  apply (single_segment_loads_nothing fx_obj fx_import fx_getattr fx_is_FunctionType
           fx_is_case_class fx_new_case "m" ModM).
  reflexivity.
Defined.

Lemma group_errors_fixture :
  parse_group quote_repr fx_no_module None (fx_group "package") fx_loader =
    (inl (ValueError "Granularity must be in ['module', 'class', 'method']."), fx_loader).
Proof.
  apply (proj1 (group_errors quote_repr fx_no_module None (fx_group "package") fx_loader));
    discriminate.
Defined.
